(** * pylacrossegateway: the line protocol of the LaCrosse gateway client

    A shallow embedding of [pylacrossegateway/lacrossegateway.py]: the
    regular expressions the module compiles, the telemetry decoder
    [LaCrosseSensor._parse], the info decoder [LaCrosseGateway._parse_info],
    the command setters, the synchronous [get_info] loop, the background
    [_refresh] loop and the worker handle of [_start_worker].

    Conventions of the embedding.
    - A Python [str] is a [list ascii]; the model covers 7-bit ASCII text,
      which is what the gateway firmware emits.  For these characters [\d] is
      [0-9], [\w] is [A-Za-z0-9_] and [.] is every character but the line
      feed, as in Python's [re] without flags.  The bytes of the socket are
      the same characters ([encode] and [decode] are the identity on them).
    - A pattern is compiled from the text it has in the source by
      [re_compile], and matched by a backtracking matcher with Python's
      order of preference (a greedy repetition tries its longest run first).
    - A Python [int] is a [Z].  The limit Python 3.11 put on the number of
      digits [int] converts is left out.
    - A Python [dict] is a [gmap]; a value that is [None] or a string is an
      [option].  An instance of [LaCrosseSensor] is the record of its
      attributes, each [None] until it is assigned.
    - A raised exception is the [Raise] branch of [res].
    - A socket is the list of chunks [recv] will return and the list of
      byte strings [sendall] wrote.  A [recv] on an empty list blocks.
    - A callback is opaque: it returns normally and leaves the session as it
      is; a call is recorded in the list of calls the loop made.
    - The operations of the caller and the iterations of the worker are the
      steps of one state machine, taken one at a time in any order. *)

From Stdlib Require Import ZArith Ascii String List Lia DecimalString.
From stdpp Require Import base option list gmap strings.

Local Open Scope Z_scope.
Local Open Scope list_scope.

(* ================================================================== *)
(** ** Python values                                                    *)
(* ================================================================== *)

Abbreviation str := (list ascii).

(** A string literal of the source as a [str]. *)
Definition L (s : string) : str := list_ascii_of_string s.

(** The values a caller passes to a setter. *)
Inductive pyval :=
| PNone
| PInt (z : Z)
| PStr (s : str).

Inductive exn :=
| AttributeError
| IndexError
| KeyError
| ValueError
| OSError.

Inductive res (A : Type) :=
| Ok (a : A)
| Raise (e : exn).
Arguments Ok {A} a.
Arguments Raise {A} e.

#[global] Instance res_ret : MRet res := fun A a => Ok a.

#[global] Instance res_bind : MBind res := fun A B k r =>
  match r with
  | Ok a => k a
  | Raise e => Raise e
  end.

(** [obj.name] for an attribute that is set ([Some]) or was never assigned. *)
Definition attr {A} (a : option A) : res A :=
  match a with
  | Some x => Ok x
  | None => Raise AttributeError
  end.

(** [xs[i]] on a Python list: [IndexError] out of range. *)
Definition index {A} (xs : list A) (i : nat) : res A :=
  match xs !! i with
  | Some x => Ok x
  | None => Raise IndexError
  end.

(* ================================================================== *)
(** ** Characters                                                       *)
(* ================================================================== *)

Definition code (c : ascii) : nat := nat_of_ascii c.

Definition between (lo hi : nat) (c : ascii) : bool :=
  (lo <=? code c)%nat && (code c <=? hi)%nat.

Definition is_digit (c : ascii) : bool := between 48 57 c.

Definition is_word (c : ascii) : bool :=
  between 48 57 c || between 65 90 c || between 97 122 c || (code c =? 95)%nat.

Definition is_newline (c : ascii) : bool := (code c =? 10)%nat.

(** [str.isspace] on ASCII: TAB, LF, VT, FF, CR, FS, GS, RS, US and the
    space. *)
Definition is_space (c : ascii) : bool :=
  between 9 13 c || between 28 32 c.

Definition chr_eqb (a b : ascii) : bool := (code a =? code b)%nat.

(* ================================================================== *)
(** ** The fragment of [re] the module uses                             *)
(* ================================================================== *)

(** What one pattern position accepts. *)
Inductive cls :=
| Digit              (* \d *)
| Word               (* \w *)
| Dot                (* .  *)
| Chr (c : ascii).   (* a literal character *)

Definition in_cls (k : cls) (c : ascii) : bool :=
  match k with
  | Digit => is_digit c
  | Word => is_word c
  | Dot => negb (is_newline c)
  | Chr a => chr_eqb c a
  end.

(** A compiled pattern is a sequence of items: one character of a class, a
    greedy repetition of a class ([+] has [lo = 1], [*] has [lo = 0]), and
    the two ends of capture group number [g]. *)
Inductive item :=
| One (k : cls)
| Rep (k : cls) (lo : nat)
| Open (g : nat)
| Close (g : nat).

Record pattern := Pattern {
  items : list item;
  groupindex : list (string * nat)     (* name of a (?P<name>...) group *)
}.

(** *** [re.compile] *)

Inductive cmode :=
| CNormal
| CEscape                      (* after a backslash *)
| CGroup                       (* after "("  *)
| CGroupQ                      (* after "(?" *)
| CGroupP                      (* after "(?P" *)
| CName (acc : string).        (* inside "(?P<" ... ">" *)

Record cstate := CState {
  c_mode : cmode;
  c_out : list item;             (* reversed *)
  c_count : nat;                 (* groups opened so far *)
  c_stack : list nat;            (* groups still open, innermost first *)
  c_names : list (string * nat)
}.

Definition emit (st : cstate) (i : item) : option cstate :=
  Some (CState CNormal (i :: c_out st) (c_count st) (c_stack st) (c_names st)).

Definition open_group (st : cstate) (name : option string) : cstate :=
  let g := S (c_count st) in
  CState CNormal (Open g :: c_out st) g (g :: c_stack st)
    (match name with
     | Some n => c_names st ++ [(n, g)]
     | None => c_names st
     end).

Definition quantify (st : cstate) (lo : nat) : option cstate :=
  match c_out st with
  | One k :: out =>
      Some (CState CNormal (Rep k lo :: out) (c_count st) (c_stack st) (c_names st))
  | _ => None
  end.

Definition normal_char (st : cstate) (c : ascii) : option cstate :=
  match c with
  | "\"%char => Some (CState CEscape (c_out st) (c_count st) (c_stack st) (c_names st))
  | "("%char => Some (CState CGroup (c_out st) (c_count st) (c_stack st) (c_names st))
  | ")"%char =>
      match c_stack st with
      | g :: stack =>
          Some (CState CNormal (Close g :: c_out st) (c_count st) stack (c_names st))
      | [] => None
      end
  | "."%char => emit st (One Dot)
  | "+"%char => quantify st 1
  | "*"%char => quantify st 0
  | "?"%char | "|"%char | "["%char | "^"%char | "$"%char => None
  | _ => emit st (One (Chr c))
  end.

Definition compile_step (st : cstate) (c : ascii) : option cstate :=
  match c_mode st with
  | CNormal => normal_char st c
  | CEscape =>
      match c with
      | "d"%char => emit st (One Digit)
      | "w"%char => emit st (One Word)
      | _ => if is_word c then None else emit st (One (Chr c))
      end
  | CGroup =>
      match c with
      | "?"%char => Some (CState CGroupQ (c_out st) (c_count st) (c_stack st) (c_names st))
      | _ => normal_char (open_group st None) c
      end
  | CGroupQ =>
      match c with
      | "P"%char => Some (CState CGroupP (c_out st) (c_count st) (c_stack st) (c_names st))
      | _ => None
      end
  | CGroupP =>
      match c with
      | "<"%char => Some (CState (CName "") (c_out st) (c_count st) (c_stack st) (c_names st))
      | _ => None
      end
  | CName acc =>
      match c with
      | ">"%char => Some (open_group st (Some acc))
      | _ =>
          if is_word c
          then Some (CState (CName (acc +:+ String c "")) (c_out st) (c_count st)
                       (c_stack st) (c_names st))
          else None
      end
  end.

Fixpoint compile_from (st : cstate) (p : str) : option pattern :=
  match p with
  | [] =>
      match c_mode st, c_stack st with
      | CNormal, [] => Some (Pattern (rev (c_out st)) (c_names st))
      | _, _ => None
      end
  | c :: p' =>
      match compile_step st c with
      | Some st' => compile_from st' p'
      | None => None
      end
  end.

(** [re.compile(p)] for a pattern of the fragment; [None] outside it. *)
Definition re_compile (p : string) : option pattern :=
  compile_from (CState CNormal [] 0 [] []) (L p).

(** *** Matching *)

(** The starts of the groups that are open and the spans of those that are
    closed, both as positions in the subject. *)
Record mstate := MState {
  m_open : list (nat * nat);
  m_span : list (nat * (nat * nat))
}.

Definition assoc {A} (g : nat) (l : list (nat * A)) : option A :=
  snd <$> List.find (fun p => (fst p =? g)%nat) l.

Definition mark_open (g pos : nat) (st : mstate) : mstate :=
  MState ((g, pos) :: m_open st) (m_span st).

Definition mark_close (g pos : nat) (st : mstate) : mstate :=
  match assoc g (m_open st) with
  | Some b => MState (m_open st) ((g, (b, pos)) :: m_span st)
  | None => st
  end.

(** The length of the longest prefix of [s] whose characters are in [k]. *)
Fixpoint span (k : cls) (s : str) : nat :=
  match s with
  | c :: s' => if in_cls k c then S (span k s') else O
  | [] => O
  end.

(** A greedy repetition tries [n], [n-1], ..., [lo] characters and keeps the
    first count for which the rest of the pattern matches. *)
Fixpoint backtrack {R} (f : nat -> option R) (lo n : nat) : option R :=
  if (n <? lo)%nat then None
  else match f n with
       | Some r => Some r
       | None =>
           match n with
           | O => None
           | S n' => backtrack f lo n'
           end
       end.

Fixpoint run (re : list item) (s : str) (pos : nat) (st : mstate)
  : option (nat * mstate) :=
  match re with
  | [] => Some (pos, st)
  | One k :: re' =>
      match s with
      | c :: s' => if in_cls k c then run re' s' (S pos) st else None
      | [] => None
      end
  | Rep k lo :: re' =>
      backtrack (fun n => run re' (drop n s) (pos + n)%nat st) lo (span k s)
  | Open g :: re' => run re' s pos (mark_open g pos st)
  | Close g :: re' => run re' s pos (mark_close g pos st)
  end.

(** A match object: the subject, where the match ends, the group spans. *)
Record Match := MkMatch {
  m_string : str;
  m_end : nat;
  m_groups : list (nat * (nat * nat));
  m_names : list (string * nat)
}.

(** [p.match(line)]: anchored at the start of [line], not at its end. *)
Definition re_match (p : option pattern) (line : str) : option Match :=
  match p with
  | Some p =>
      match run (items p) line 0%nat (MState [] []) with
      | Some (e, st) => Some (MkMatch line e (m_span st) (groupindex p))
      | None => None
      end
  | None => None
  end.

Arguments re_match : simpl never.

(** [m.group()] *)
Definition group0 (m : Match) : str := take (m_end m) (m_string m).

Definition name_index (name : string) (l : list (string * nat)) : option nat :=
  snd <$> List.find (fun p => String.eqb (fst p) name) l.

(** [m.group(name)]; every group of the two patterns takes part in every
    match, so the result is a string. *)
Definition group (m : Match) (name : string) : str :=
  match name_index name (m_names m) with
  | Some g =>
      match assoc g (m_groups m) with
      | Some (b, e) => take (e - b) (drop b (m_string m))
      | None => []
      end
  | None => []
  end.

(* ================================================================== *)
(** ** The string methods the module calls                              *)
(* ================================================================== *)

(** [s.split()]: the maximal runs of characters that are not blanks. *)
Fixpoint split_ws_from (cur : str) (s : str) : list str :=
  match s with
  | [] => match cur with [] => [] | _ => [rev cur] end
  | c :: s' =>
      if is_space c
      then match cur with
           | [] => split_ws_from [] s'
           | _ => rev cur :: split_ws_from [] s'
           end
      else split_ws_from (c :: cur) s'
  end.

Definition split_ws (s : str) : list str := split_ws_from [] s.

(** [s.split(sep)] for a separator of one character: never empty. *)
Fixpoint split_on_from (sep : ascii) (cur : str) (s : str) : list str :=
  match s with
  | [] => [rev cur]
  | c :: s' =>
      if chr_eqb c sep
      then rev cur :: split_on_from sep [] s'
      else split_on_from sep (c :: cur) s'
  end.

Definition split_on (sep : ascii) (s : str) : list str := split_on_from sep [] s.

(** ['\r\n'] *)
Definition CRLF : str := [ascii_of_nat 13; ascii_of_nat 10].

(** [s.strip('\r\n')]: carriage returns and line feeds off both ends. *)
Definition is_crlf (c : ascii) : bool := (code c =? 13)%nat || (code c =? 10)%nat.

Fixpoint lstrip (s : str) : str :=
  match s with
  | c :: s' => if is_crlf c then lstrip s' else s
  | [] => []
  end.

Definition strip_crlf (s : str) : str := rev (lstrip (rev (lstrip s))).

(** [int(s)] on a run of decimal digits, the only strings [_parse] hands it;
    the signs, blanks and underscores that [int] also reads are left out and
    count as a [ValueError]. *)
Definition digit_value (c : ascii) : Z := Z.of_nat (code c) - 48.

Definition is_uint (s : str) : bool :=
  match s with
  | [] => false
  | _ => forallb is_digit s
  end.

Definition int_of (s : str) : res Z :=
  if is_uint s
  then Ok (fold_left (fun acc c => acc * 10 + digit_value c) s 0)
  else Raise ValueError.

(** [[f(x) for x in xs]] *)
Fixpoint comprehension {A B} (f : A -> res B) (xs : list A) : res (list B) :=
  match xs with
  | [] => Ok []
  | x :: xs' => y ← f x; ys ← comprehension f xs'; mret (y :: ys)
  end.

(** [str(n)] for an [int]. *)
Definition str_of_int (n : Z) : str := L (NilZero.string_of_int (Z.to_int n)).

Definition hex_digit (d : Z) : ascii :=
  ascii_of_nat (Z.to_nat (if d <? 10 then 48 + d else 55 + d)).

Fixpoint hex_digits (fuel : nat) (n : Z) (acc : str) : str :=
  match fuel with
  | O => acc
  | S fuel' =>
      let acc' := hex_digit (n mod 16) :: acc in
      if n <? 16 then acc' else hex_digits fuel' (n / 16) acc'
  end.

(** [format(n, 'X')] for [0 <= n]. *)
Definition hex_upper (n : Z) : str :=
  hex_digits (S (Z.to_nat (Z.log2 n))) n [].

(** [f'{i:02X}']: upper-case hexadecimal, padded with zeros to a width of
    at least two (the sign counts in the width). *)
Definition format_02X (i : Z) : str :=
  if i <? 0 then "-"%char :: hex_upper (- i)
  else
    let h := hex_upper i in
    repeat "0"%char (2 - length h) ++ h.

(** ['{}'.format(v)] *)
Definition format_value (v : pyval) : str :=
  match v with
  | PNone => L "None"
  | PInt z => str_of_int z
  | PStr s => s
  end.

(* ================================================================== *)
(** ** [class LaCrosseSensor]                                           *)
(* ================================================================== *)

Module LaCrosseSensor.

(** An instance: each attribute is [None] until [_parse] assigns it (the
    class itself defines [re_reading] and the methods only, so reading an
    attribute that is [None] here raises [AttributeError]). *)
Record t := Make {
  sensortype : option Z;
  sensorid : option str;
  ontime : option Z;
  totaltime : option Z;
  energy : option Z;
  power : option Z;
  maxpower : option Z;
  resets : option Z
}.

Definition blank : t := Make None None None None None None None None.

Definition re_reading : option pattern :=
  re_compile "OK (\d+) (\d+) (\d+) (\d+) (\d+) (\d+) (\d+) (\d+) (\d+) (\d+) (\d+) (\d+) (\d+) (\d+) (\d+) (\d+) (\d+) (\d+) (\d+) (\d+) (\d+)".

(** The eight assignments of [_parse] once [data] is known. *)
Definition assign (data : list Z) : res t :=
  d0 ← index data 0; d1 ← index data 1; d2 ← index data 2;
  d3 ← index data 3; d4 ← index data 4; d5 ← index data 5;
  d6 ← index data 6; d7 ← index data 7; d8 ← index data 8;
  d9 ← index data 9; d10 ← index data 10; d11 ← index data 11;
  d12 ← index data 12; d13 ← index data 13; d14 ← index data 14;
  d15 ← index data 15; d16 ← index data 16; d17 ← index data 17;
  d18 ← index data 18; d19 ← index data 19;
  Ok {| sensortype := Some d0;
        sensorid := Some (concat (format_02X <$> [d1; d2]));
        ontime := Some (d3 * 16777216 + d4 * 65536 + d5 * 256 + d6);
        totaltime := Some (d7 * 16777216 + d8 * 65536 + d9 * 256 + d10);
        energy := Some (d11 * 16777216 + d12 * 65536 + d13 * 256 + d14);
        power := Some (d15 * 256 + d16);
        maxpower := Some (d17 * 256 + d18);
        resets := Some d19 |}.

(** [_parse(self, line)]: the instance afterwards. *)
Definition _parse (self : t) (line : str) : res t :=
  match re_match re_reading line with
  | Some m =>
      data ← comprehension int_of (tail (split_ws (group0 m)));
      assign data
  | None => Ok self
  end.

(** [LaCrosseSensor(line)]; [line=None] is the default, and the empty
    string is as false as [None]. *)
Definition __init__ (line : option str) : res t :=
  match line with
  | Some (c :: l) => _parse blank (c :: l)
  | Some [] | None => Ok blank
  end.

(** [__repr__]: ["id=%s pw=%d" % (self.sensorid, self.power)]. *)
Definition __repr__ (self : t) : res str :=
  i ← attr (sensorid self);
  p ← attr (power self);
  Ok (L "id=" ++ i ++ L " pw=" ++ str_of_int p).

End LaCrosseSensor.

(* ================================================================== *)
(** ** [class LaCrosseGateway]                                          *)
(* ================================================================== *)

Module LaCrosseGateway.

(** The [info] dictionary: its eight keys are always there, the value of
    a key is [None] or a string. *)
Abbreviation info := (gmap string (option str)).

Definition re_info : option pattern :=
  re_compile "\[(?P<name>\w+\.\w+).(?P<ver>.*) \(1=(?P<rfm1name>\w+) (\w+):(?P<rfm1freq>\d+) (?P<rfm1mode>.*)\) {IP=(?P<address>.*)}\]".

Definition info0 : info :=
  <["rfm1togglemask" := None]> (<["rfm1toggleinterval" := None]> (
  <["rfm1datarate" := None]> (<["rfm1frequency" := None]> (
  <["rfm1name" := None]> (<["address" := None]> (
  <["version" := None]> (<["name" := None]> ∅))))))).

Definition _parse_info (line : str) : res info :=
  let info := info0 in
  match re_match re_info line with
  | Some m =>
      let info := <["name" := Some (group m "name")]> info in
      let info := <["version" := Some (group m "ver")]> info in
      let info := <["address" := Some (group m "address")]> info in
      let info := <["rfm1name" := Some (group m "rfm1name")]> info in
      let info := <["rfm1frequency" := Some (group m "rfm1freq")]> info in
      let values := split_on ":" (group m "rfm1mode") in
      v0 ← index values 0;
      if bool_decide (v0 = L "r") then
        v1 ← index values 1;
        Ok (<["rfm1datarate" := Some v1]> info)
      else if bool_decide (v0 = L "t") then
        v1 ← index values 1;
        let toggle := split_on "~" v1 in
        t0 ← index toggle 0;
        let info := <["rfm1toggleinterval" := Some t0]> info in
        t1 ← index toggle 1;
        Ok (<["rfm1togglemask" := Some t1]> info)
      else Ok info
  | None => Ok info
  end.

(** *** The session *)

(** A connected socket: the chunks [recv] will return, in order, the byte
    strings [sendall] wrote so far, and whether [close] was called. *)
Record socket := Socket {
  inbox : list str;
  sent : list str;
  is_open : bool
}.

Section Session.

(** Callbacks and their user data are the caller's: opaque here. *)
Context {Callback UserData : Type}.

(** The class attributes [sensors] and [_registry]: two dictionaries
    that every instance of the class shares. *)
Record shared := Shared {
  sensors : gmap str LaCrosseSensor.t;
  _registry : gmap str (list (Callback * option UserData))
}.

(** The attributes of one instance. [_stopevent] is [None] or an event
    and whether it is set; [_thread] is [None] or the number of the
    thread it holds. *)
Record gateway := Gateway {
  _host : str;
  _port : Z;
  _callback : option Callback;
  _callback_data : option UserData;
  _socket : option socket;
  _stopevent : option bool;
  _thread : option nat
}.

(** One session in its process: the shared dictionaries, the instance,
    and the threads the session started with whether each still runs. *)
Record world := World {
  dicts : shared;
  self : gateway;
  threads : list bool
}.

Definition set_self (w : world) (g : gateway) : world :=
  World (dicts w) g (threads w).

(** [LaCrosseGateway(host, port)] *)
Definition __init__ (d : shared) (ts : list bool) (host : str) (port : Z) : world :=
  World d (Gateway host port None None None None None) ts.

(** [connect]; [peer] is what the device will send. *)
Definition connect (w : world) (peer : list str) : world :=
  let g := self w in
  set_self w (Gateway (_host g) (_port g) (_callback g) (_callback_data g)
                (Some (Socket peer [] true)) (_stopevent g) (_thread g)).

Definition with_socket (g : gateway) (sk : socket) : gateway :=
  Gateway (_host g) (_port g) (_callback g) (_callback_data g)
    (Some sk) (_stopevent g) (_thread g).

(** [_write_cmd(cmd)]: [self._socket.sendall((cmd + '\r\n').encode())] *)
Definition _write_cmd (g : gateway) (cmd : str) : res gateway :=
  sk ← attr (_socket g);
  if is_open sk
  then Ok (with_socket g (Socket (inbox sk) (sent sk ++ [cmd ++ CRLF]) true))
  else Raise OSError.

(** [cmds[rfm]] for [cmds = {1: lower, 2: upper}] *)
Definition cmds (lower upper : ascii) (rfm : Z) : res ascii :=
  if rfm =? 1 then Ok lower
  else if rfm =? 2 then Ok upper
  else Raise KeyError.

(** The body the four setters share:
    [self._write_cmd('{}{}'.format(value, cmds[rfm]))]. *)
Definition set_with (lower upper : ascii) (g : gateway) (value : pyval) (rfm : Z)
  : res gateway :=
  letter ← cmds lower upper rfm;
  _write_cmd g (format_value value ++ [letter]).

Definition set_frequency := set_with "f" "F".
Definition set_datarate := set_with "r" "R".
Definition set_toggle_interval := set_with "t" "T".
Definition set_toggle_mask := set_with "m" "M".


(** *** [get_info] *)

Definition re_brackets : option pattern := re_compile "\[.*\]".

(** The [for x in range(10)] loop from its iteration [x] on, then the
    [while True] loop around it. [inbox] is what the socket still has to
    deliver: when it runs out the call is still blocked in [recv], which
    is [None]. *)
Fixpoint get_info_from (inbox : list str) (x : nat) (sent : list str)
  : option (res info * list str * list str) :=
  match inbox with
  | [] => None
  | raw :: inbox' =>
      let line := strip_crlf raw in
      match re_match re_brackets line with
      | Some _ => Some (_parse_info line, inbox', sent)
      | None =>
          if (S x <? 10)%nat
          then get_info_from inbox' (S x) sent
          else get_info_from inbox' 0 (sent ++ [L "v" ++ CRLF])
      end
  end.

(** [get_info()]: what it returns or raises, and the instance then. *)
Definition get_info (g : gateway) : option (res info * gateway) :=
  match _write_cmd g (L "v") with
  | Raise e => Some (Raise e, g)
  | Ok g1 =>
      match _socket g1 with
      | Some sk =>
          match get_info_from (inbox sk) 0 (sent sk) with
          | Some (r, inbox', sent') =>
              Some (r, with_socket g1 (Socket inbox' sent' (is_open sk)))
          | None => None
          end
      | None => Some (Raise AttributeError, g1)
      end
  end.

(** *** The background worker *)

(** [_start_worker] *)
Definition _start_worker (w : world) : world :=
  let g := self w in
  match _thread g with
  | Some _ => w
  | None =>
      World (dicts w)
        (Gateway (_host g) (_port g) (_callback g) (_callback_data g)
           (_socket g) (Some false) (Some (length (threads w))))
        (threads w ++ [true])
  end.

Definition start_scan (w : world) : world := _start_worker w.

(** [_stop_worker]: set the event, then join the thread, which has
    ended when [join] returns. *)
Definition _stop_worker (w : world) : world :=
  let g := self w in
  let ev := match _stopevent g with Some _ => Some true | None => None end in
  World (dicts w)
    (Gateway (_host g) (_port g) (_callback g) (_callback_data g)
       (_socket g) ev (_thread g))
    (match _thread g with
     | Some i => <[i := false]> (threads w)
     | None => threads w
     end).

(** [close]: the world afterwards and the exception it raised, if any. *)
Definition close (w : world) : world * option exn :=
  let w1 := _stop_worker w in
  match _socket (self w1) with
  | Some sk =>
      (set_self w1 (with_socket (self w1) (Socket (inbox sk) (sent sk) false)), None)
  | None => (w1, Some AttributeError)
  end.

(** [register_callback(sensorid, callback, user_data)] *)
Definition register_callback (d : shared) (sid : str) (callback : Callback)
    (user_data : option UserData) : shared :=
  let reg :=
    match _registry d !! sid with
    | Some _ => _registry d
    | None => <[sid := []]> (_registry d)
    end in
  Shared (sensors d)
    (<[sid := default [] (reg !! sid) ++ [(callback, user_data)]]> reg).

(** [register_all(callback, user_data)] *)
Definition register_all (g : gateway) (callback : Callback)
    (user_data : option UserData) : gateway :=
  Gateway (_host g) (_port g) (Some callback) user_data
    (_socket g) (_stopevent g) (_thread g).

(** One call [f(sensor, data)] of a callback. *)
Inductive call := Call (f : Callback) (sensor : LaCrosseSensor.t) (data : option UserData).

(** The calls the loop makes for one reading: the catch-all callback
    if there is one, then the callbacks of the identifier, in their
    order. *)
Definition dispatch (g : gateway) (sensor : LaCrosseSensor.t)
    (cbs : list (Callback * option UserData)) : list call :=
  match _callback g with
  | Some f => [Call f sensor (_callback_data g)]
  | None => []
  end ++ ((fun cb => Call cb.1 sensor cb.2) <$> cbs).

(** The body of the [while] loop of [_refresh] for the chunk [raw] that
    [recv] returned: the dictionaries afterwards and the calls it made,
    in order. *)
Definition _refresh_body (d : shared) (g : gateway) (raw : str)
  : res (shared * list call) :=
  let line := strip_crlf raw in
  match re_match LaCrosseSensor.re_reading line with
  | Some _ =>
      sensor ← LaCrosseSensor.__init__ (Some line);
      sid ← attr (LaCrosseSensor.sensorid sensor);
      let d' := Shared (<[sid := sensor]> (sensors d)) (_registry d) in
      let global :=
        match _callback g with
        | Some f => [Call f sensor (_callback_data g)]
        | None => []
        end in
      sid' ← attr (LaCrosseSensor.sensorid sensor);
      let scoped :=
        match _registry d' !! sid' with
        | Some cbs => (fun cbs => Call (fst cbs) sensor (snd cbs)) <$> cbs
        | None => []
        end in
      Ok (d', global ++ scoped)
  | None => Ok (d, [])
  end.

(** [_refresh] over the chunks that arrive before the event is set. *)
Fixpoint _refresh (d : shared) (g : gateway) (chunks : list str)
  : res (shared * list call) :=
  match chunks with
  | [] => Ok (d, [])
  | raw :: chunks' =>
      r ← _refresh_body d g raw;
      r' ← _refresh (fst r) g chunks';
      Ok (fst r', snd r ++ snd r')
  end.

(** *** The states a session goes through *)

Inductive op :=
| OpConnect (peer : list str)
| OpClose
| OpStartScan
| OpRegisterCallback (sid : str) (f : Callback) (data : option UserData)
| OpRegisterAll (f : Callback) (data : option UserData)
| OpSet (lower upper : ascii) (value : pyval) (rfm : Z)
| OpGetInfo
| OpIngest (raw : str).       (* the worker handles one chunk *)

(** The world after an operation, whether it returned or raised; an
    operation that is blocked leaves it as it is. *)
Definition exec (w : world) (o : op) : world :=
  match o with
  | OpConnect peer => connect w peer
  | OpClose => fst (close w)
  | OpStartScan => start_scan w
  | OpRegisterCallback sid f data =>
      World (register_callback (dicts w) sid f data) (self w) (threads w)
  | OpRegisterAll f data => set_self w (register_all (self w) f data)
  | OpSet lower upper value rfm =>
      match set_with lower upper (self w) value rfm with
      | Ok g => set_self w g
      | Raise _ => w
      end
  | OpGetInfo =>
      match get_info (self w) with
      | Some (_, g) => set_self w g
      | None => w
      end
  | OpIngest raw =>
      match _refresh_body (dicts w) (self w) raw with
      | Ok (d, _) => World d (self w) (threads w)
      | Raise _ => w
      end
  end.

Inductive reachable (host : str) (port : Z) : world -> Prop :=
| reach_init d :
    reachable host port (__init__ d [] host port)
| reach_step w o :
    reachable host port w -> reachable host port (exec w o).

(** The handle and the threads the session started go together: no
    handle and no thread, or the handle of the one thread. *)
Definition worker_inv (w : world) : Prop :=
  match _thread (self w) with
  | None => threads w = []
  | Some i => i = 0%nat /\ length (threads w) = 1%nat
  end.

(** The background tasks this session has running. *)
Definition running (w : world) : nat := length (filter (fun b => b = true) (threads w)).

End Session.

End LaCrosseGateway.

(* ================================================================== *)
(** ** [cli_tool.py]: [configure]                                       *)
(* ================================================================== *)

Module CliTool.

(** The options of the command line that [configure] reads; [argparse]
    gives each the string typed after it, or [None]. *)
Record args := Args {
  frequency_rfm1 : option str;
  frequency_rfm2 : option str;
  toggle_interval_rfm1 : option str;
  toggle_interval_rfm2 : option str;
  toggle_mask_rfm1 : option str;
  toggle_mask_rfm2 : option str;
  datarate_rfm1 : option str;
  datarate_rfm2 : option str
}.

(** [if a:] for an option: [None] and the empty string are false. *)
Definition given (a : option str) : bool :=
  match a with
  | Some (_ :: _) => true
  | Some [] | None => false
  end.

(** An option as the argument of a setter. *)
Definition value (a : option str) : pyval :=
  match a with
  | Some s => PStr s
  | None => PNone
  end.

Section Configure.

Context {Callback UserData : Type}.

(** [configure(lacrossegateway, config, args)]; [config] is not used.
    The calls for the second radio's data rate and toggle interval pass
    [args.datarate_rfm1] and [args.toggle_interval_rfm1], as the source
    does. *)
Definition configure (g : @LaCrosseGateway.gateway Callback UserData) (a : args)
  : res (@LaCrosseGateway.gateway Callback UserData) :=
  g ← (if given (frequency_rfm1 a)
       then LaCrosseGateway.set_frequency g (value (frequency_rfm1 a)) 1 else Ok g);
  g ← (if given (frequency_rfm2 a)
       then LaCrosseGateway.set_frequency g (value (frequency_rfm2 a)) 2 else Ok g);
  g ← (if given (datarate_rfm1 a)
       then LaCrosseGateway.set_datarate g (value (datarate_rfm1 a)) 1 else Ok g);
  g ← (if given (datarate_rfm2 a)
       then LaCrosseGateway.set_datarate g (value (datarate_rfm1 a)) 2 else Ok g);
  g ← (if given (toggle_mask_rfm1 a)
       then LaCrosseGateway.set_toggle_mask g (value (toggle_mask_rfm1 a)) 1 else Ok g);
  g ← (if given (toggle_mask_rfm2 a)
       then LaCrosseGateway.set_toggle_mask g (value (toggle_mask_rfm2 a)) 2 else Ok g);
  g ← (if given (toggle_interval_rfm1 a)
       then LaCrosseGateway.set_toggle_interval g (value (toggle_interval_rfm1 a)) 1
       else Ok g);
  (if given (toggle_interval_rfm2 a)
   then LaCrosseGateway.set_toggle_interval g (value (toggle_interval_rfm1 a)) 2
   else Ok g).

End Configure.

(** What one guarded call of [configure] puts on the wire: nothing when
    the option [guard] is not given, else the value [v] as [format] prints
    it, the letter, CR and LF. *)
Definition wire (guard v : option str) (letter : ascii) : list str :=
  if given guard then [format_value (value v) ++ [letter] ++ CRLF] else [].

End CliTool.

(* ================================================================== *)
(** ** The telemetry shape, in the words of the specification           *)
(* ================================================================== *)

Module Reference.

(** The text of [n] fields: each a space and then its digits. *)
Definition joined (ds : list str) : str :=
  concat ((fun d => " "%char :: d) <$> ds).

(** "The literal token OK followed by 21 space-separated unsigned
    integers", then anything. *)
Definition telemetry_line (ds : list str) (rest : str) : str :=
  L "OK" ++ joined ds ++ rest.

(** Reads [n] fields off the front of [s]: the fields and what is left. *)
Fixpoint read_fields (n : nat) (s : str) : option (list str * str) :=
  match n with
  | O => Some ([], s)
  | S n' =>
      match s with
      | c :: s1 =>
          if chr_eqb c " "
          then
            let k := span Digit s1 in
            if (k =? 0)%nat then None
            else
              match read_fields n' (drop k s1) with
              | Some (ds, rest) => Some (take k s1 :: ds, rest)
              | None => None
              end
          else None
      | [] => None
      end
  end.

(** Whether a line has the telemetry shape. *)
Definition telemetry_shape (line : str) : bool :=
  match line with
  | c1 :: c2 :: s =>
      chr_eqb c1 "O" && chr_eqb c2 "K" && bool_decide (is_Some (read_fields 21 s))
  | _ => false
  end.

(** The value of an unsigned decimal field. *)
Definition decimal (d : str) : Z :=
  fold_left (fun acc c => acc * 10 + digit_value c) d 0.


(** "[b0*2^24 + b1*2^16 + b2*2^8 + b3]" *)
Definition be32 (b0 b1 b2 b3 : Z) : Z := b0 * 2^24 + b1 * 2^16 + b2 * 2^8 + b3.


(** "Two raw bytes -> 4 uppercase hex digits, zero-padded per byte." *)
Definition hex2 (b : Z) : str := [hex_digit (b / 16); hex_digit (b mod 16)].


(** *** The info line *)

(** The parts of an info line, "Name.Ver (1=RFMName mode:value)
    {IP=address}" between brackets, as the pattern of [_parse_info] reads it: the two words of the name and the
    character after them, the version, the name of the first radio, the
    key and the digits of its frequency, the mode text, the address and
    what follows the closing bracket. *)
Record info_parts := InfoParts {
  ip_name1 : str;
  ip_name2 : str;
  ip_sep : ascii;
  ip_ver : str;
  ip_rfm : str;
  ip_key : str;
  ip_freq : str;
  ip_mode : str;
  ip_addr : str;
  ip_tail : str
}.

Definition info_line (p : info_parts) : str :=
  L "[" ++ ip_name1 p ++ L "." ++ ip_name2 p ++ [ip_sep p] ++ ip_ver p
  ++ L " (1=" ++ ip_rfm p ++ L " " ++ ip_key p ++ L ":" ++ ip_freq p
  ++ L " " ++ ip_mode p ++ L ") {IP=" ++ ip_addr p ++ L "}]" ++ ip_tail p.

(** A non-empty run of characters of a class. *)
Definition run_of (k : cls) (s : str) : bool :=
  negb (length s =? 0)%nat && forallb (in_cls k) s.

(** [c] does not occur in [s]. *)
Definition lacks (c : ascii) (s : str) : bool :=
  forallb (fun a => negb (chr_eqb a c)) s.

(** The parts are what they are called: words, digits, text of one line;
    and a bracket or a brace occurs only where the shape has one, so that
    the line reads in one way only. *)
Definition info_parts_ok (p : info_parts) : bool :=
  run_of Word (ip_name1 p) && run_of Word (ip_name2 p)
  && negb (is_word (ip_sep p)) && in_cls Dot (ip_sep p)
  && forallb (in_cls Dot) (ip_ver p)
  && run_of Word (ip_rfm p) && run_of Word (ip_key p)
  && run_of Digit (ip_freq p)
  && forallb (in_cls Dot) (ip_mode p) && lacks "(" (ip_mode p)
  && forallb (in_cls Dot) (ip_addr p)
  && lacks "(" (ip_addr p) && lacks ")" (ip_addr p)
  && lacks "(" (ip_tail p) && lacks ")" (ip_tail p) && lacks "}" (ip_tail p).

(** The mode discriminator: the text before the first colon. *)
Fixpoint before (c : ascii) (s : str) : str :=
  match s with
  | [] => []
  | a :: s' => if chr_eqb a c then [] else a :: before c s'
  end.

(** The text after the first [c], empty when there is none. *)
Fixpoint after (c : ascii) (s : str) : str :=
  match s with
  | [] => []
  | a :: s' => if chr_eqb a c then s' else after c s'
  end.

(** The eight keys of a [DeviceInfo]. *)
Definition info_keys : gset string :=
  list_to_set ["name"; "version"; "address"; "rfm1name"; "rfm1frequency";
               "rfm1datarate"; "rfm1toggleinterval"; "rfm1togglemask"]%string.

(** The [DeviceInfo] of a well-formed line with the given mode fields. *)
Definition device_info (p : info_parts) (rate interval mask : option str)
  : gmap string (option str) :=
  list_to_map
    [("name", Some (ip_name1 p ++ L "." ++ ip_name2 p));
     ("version", Some (ip_ver p));
     ("address", Some (ip_addr p));
     ("rfm1name", Some (ip_rfm p));
     ("rfm1frequency", Some (ip_freq p));
     ("rfm1datarate", rate);
     ("rfm1toggleinterval", interval);
     ("rfm1togglemask", mask)].

(** The [DeviceInfo] of a match: the five fields the groups give, and the
    given mode fields. *)
Definition matched_info (m : Match) (rate interval mask : option str)
  : gmap string (option str) :=
  list_to_map
    [("name", Some (group m "name"));
     ("version", Some (group m "ver"));
     ("address", Some (group m "address"));
     ("rfm1name", Some (group m "rfm1name"));
     ("rfm1frequency", Some (group m "rfm1freq"));
     ("rfm1datarate", rate);
     ("rfm1toggleinterval", interval);
     ("rfm1togglemask", mask)].

(** The result in which every field is absent. *)
Definition absent_info : gmap string (option str) :=
  list_to_map
    [("name", None); ("version", None); ("address", None);
     ("rfm1name", None); ("rfm1frequency", None); ("rfm1datarate", None);
     ("rfm1toggleinterval", None); ("rfm1togglemask", None)].

End Reference.

(* ================================================================== *)
(** ** Sample lines and sessions                                        *)
(* ================================================================== *)

Module Sample.

(** The telemetry line of the comment in [LaCrosseSensor]. *)
Definition reading : str :=
  L "OK 22 121 49 3 222 240 0 1 82 87 121 0 4 148 225 0 0 38 229 1 0".

(** The third line of the docstring of [_parse_info], and its parts. *)
Definition info_r : str :=
  L "[LaCrosseITPlusReader.Gateway.1.35 (1=RFM69 f:868300 r:8) {IP=192.168.178.40}]".

Definition parts (mode : string) : Reference.info_parts :=
  Reference.InfoParts (L "LaCrosseITPlusReader") (L "Gateway") "." (L "1.35") (L "RFM69")
    (L "f") (L "868300") (L mode) (L "192.168.178.40") [].

(** A gateway whose callbacks and user data are numbers, connected to a
    device that will send [peer]. *)
Definition connected (peer : list str) : @LaCrosseGateway.gateway nat nat :=
  LaCrosseGateway.Gateway (L "gateway") 81 None None
    (Some (LaCrosseGateway.Socket peer [] true)) None None.

(** Eleven chunks that are not bracketed lines. *)
Definition noise : list str :=
  L <$> ["OK 9 248 1 4 150 106"; "1"; "2"; "3"; "4"; "5"; "6"; "7"; "8"; "9";
         "10"]%string.

(** A session that is connected and scanning. *)
Definition scanning : @LaCrosseGateway.world nat nat :=
  LaCrosseGateway.exec
    (LaCrosseGateway.exec
       (LaCrosseGateway.__init__ (LaCrosseGateway.Shared ∅ ∅) [] (L "gateway") 81)
       (LaCrosseGateway.OpConnect []))
    LaCrosseGateway.OpStartScan.

(** Three registrations, two of them for the sensor of [reading]. *)
Definition registrations : list (str * (nat * option nat)) :=
  [(L "7931", (1%nat, None)); (L "0000", (2%nat, None));
   (L "7931", (3%nat, Some 5%nat))].

(** The dictionaries after them. *)
Definition registered : @LaCrosseGateway.shared nat nat :=
  foldl (fun d r => LaCrosseGateway.register_callback d r.1 r.2.1 r.2.2)
    (LaCrosseGateway.Shared ∅ ∅) registrations.

(** What [reading] decodes to. *)
Definition sensor : LaCrosseSensor.t :=
  LaCrosseSensor.Make (Some 22) (Some (L "7931")) (Some 64942080) (Some 22173561)
    (Some 300257) (Some 0) (Some 9957) (Some 1).

(** A gateway with the catch-all callback [0]. *)
Definition listening : @LaCrosseGateway.gateway nat nat :=
  LaCrosseGateway.Gateway (L "gateway") 81 (Some 0%nat) None None
    (Some false) (Some 0%nat).

End Sample.

(** The items of [n] fields [ (\d+)], numbered as in [idxs]. *)
Fixpoint field_items (idxs : list nat) : list item :=
  match idxs with
  | [] => []
  | g :: idxs' => One (Chr " ") :: Open g :: Rep Digit 1 :: Close g :: field_items idxs'
  end.

(* ================================================================== *)
(** ** Lemmas on the matcher                                            *)
(* ================================================================== *)

Import Reference.

Section Backtrack.

Context {R : Type} (f : nat -> option R).

Lemma backtrack_unfold lo n :
  backtrack f lo n =
  if (n <? lo)%nat then None
  else match f n with
       | Some r => Some r
       | None => match n with O => None | S n' => backtrack f lo n' end
       end.
Proof. now destruct n. Qed.

Lemma backtrack_below lo n : (n < lo)%nat -> backtrack f lo n = None.
Proof.
  intros H. rewrite backtrack_unfold.
  now destruct (Nat.ltb_spec n lo); [|lia].
Qed.

(** The longest count wins when the rest of the pattern accepts it. *)
Lemma backtrack_top lo n r :
  (lo <= n)%nat -> f n = Some r -> backtrack f lo n = Some r.
Proof.
  intros Hle Hf. rewrite backtrack_unfold, Hf.
  now destruct (Nat.ltb_spec n lo); [lia|].
Qed.

(** Counts on which the rest of the pattern fails are passed over. *)
Lemma backtrack_skip lo m n :
  (m <= n)%nat ->
  (forall i, (m < i <= n)%nat -> f i = None) ->
  backtrack f lo n = backtrack f lo m.
Proof.
  induction n as [|n IH]; intros Hle Hnone.
  - now replace m with 0%nat by lia.
  - destruct (decide (m = S n)) as [->|Hne]; [done|].
    rewrite (backtrack_unfold lo (S n)).
    destruct (Nat.ltb_spec (S n) lo) as [Hlt|Hge].
    + symmetry. apply backtrack_below. lia.
    + rewrite Hnone by lia. apply IH; [lia|]. intros i Hi. apply Hnone. lia.
Qed.

Lemma backtrack_none lo n :
  (forall i, (lo <= i <= n)%nat -> f i = None) -> backtrack f lo n = None.
Proof.
  induction n as [|n IH]; intros Hnone; rewrite backtrack_unfold.
  - destruct (Nat.ltb_spec 0 lo); [done|]. now rewrite Hnone by lia.
  - destruct (Nat.ltb_spec (S n) lo); [done|]. rewrite Hnone by lia.
    apply IH. intros i Hi. apply Hnone. lia.
Qed.

(** A repetition that succeeds does so at one of the counts it tries. *)
Lemma backtrack_inv lo n r :
  backtrack f lo n = Some r -> exists i, (lo <= i <= n)%nat /\ f i = Some r.
Proof.
  induction n as [|n IH]; rewrite backtrack_unfold.
  - destruct (Nat.ltb_spec 0 lo) as [Hlt|Hge]; [done|].
    destruct (f 0%nat) eqn:E; [|done].
    intros [= <-]. exists 0%nat. split; [lia|done].
  - destruct (Nat.ltb_spec (S n) lo) as [Hlt|Hge]; [done|].
    destruct (f (S n)) eqn:E.
    + intros [= <-]. exists (S n). split; [lia|done].
    + intros Hb. destruct (IH Hb) as (i & Hi & Hfi). exists i. split; [lia|done].
Qed.

End Backtrack.

Lemma chr_eqb_eq a b : chr_eqb a b = true <-> a = b.
Proof.
  unfold chr_eqb, code. rewrite Nat.eqb_eq. split; [|now intros ->].
  intros H. rewrite <- (ascii_nat_embedding a), <- (ascii_nat_embedding b).
  now rewrite H.
Qed.

Lemma span_le k s : (span k s <= length s)%nat.
Proof. induction s as [|c s IH]; simpl; [lia|]. destruct (in_cls k c); simpl; lia. Qed.

(** The characters [span] counts are in the class. *)
Lemma span_take k s : forallb (in_cls k) (take (span k s) s) = true.
Proof.
  induction s as [|c s IH]; simpl; [done|].
  destruct (in_cls k c) eqn:E; simpl; [|done]. now rewrite E, IH.
Qed.

(** The character after them is not. *)
Lemma span_drop k s c s' : drop (span k s) s = c :: s' -> in_cls k c = false.
Proof.
  induction s as [|a s IH]; simpl; [done|].
  destruct (in_cls k a) eqn:E; simpl; [done|]. now intros [= <- _].
Qed.

Lemma span_inside k s n :
  (n < span k s)%nat -> exists c s', drop n s = c :: s' /\ in_cls k c = true.
Proof.
  revert n. induction s as [|a s IH]; simpl; intros n Hn; [lia|].
  destruct (in_cls k a) eqn:E; [|lia].
  destruct n as [|n]; simpl; [eauto|]. apply IH. lia.
Qed.

Lemma lacks_drop a s n : lacks a s = true -> lacks a (drop n s) = true.
Proof.
  revert n. induction s as [|c s IH]; intros [|n]; simpl; try done.
  intros [_ H]%andb_prop. now apply IH.
Qed.

Lemma lacks_cons c a y : lacks c (a :: y) = negb (chr_eqb a c) && lacks c y.
Proof. reflexivity. Qed.

Lemma lacks_head a s : lacks a (a :: s) = false.
Proof. unfold lacks. simpl. now rewrite (proj2 (chr_eqb_eq a a) eq_refl). Qed.

Lemma span_inside_not k s :
  (span k s < length s)%nat ->
  exists c s', drop (span k s) s = c :: s' /\ in_cls k c = false.
Proof.
  induction s as [|a s IH]; simpl; [lia|].
  destruct (in_cls k a) eqn:E; simpl; [|eauto]. intros H. apply IH. lia.
Qed.

Lemma span_app k d s :
  forallb (in_cls k) d = true -> span k (d ++ s) = (length d + span k s)%nat.
Proof.
  induction d as [|c d IH]; simpl; [done|].
  intros [-> Hd]%andb_prop. now rewrite IH.
Qed.

Lemma digit_not_space c : is_digit c = true -> chr_eqb c " " = false.
Proof.
  unfold is_digit, between, chr_eqb. intros [H1 H2]%andb_prop.
  apply Nat.leb_le in H1. apply Nat.eqb_neq. change (code " ") with 32%nat. lia.
Qed.

Lemma run_one k re c s pos st :
  run (One k :: re) (c :: s) pos st =
  if in_cls k c then run re s (S pos) st else None.
Proof. reflexivity. Qed.

Lemma run_rep k lo re s pos st :
  run (Rep k lo :: re) s pos st =
  backtrack (fun n => run re (drop n s) (pos + n)%nat st) lo (span k s).
Proof. reflexivity. Qed.

Lemma length_joined_cons d ds :
  length (joined (d :: ds)) = S (length d + length (joined ds)).
Proof. unfold joined. simpl. now rewrite length_app. Qed.

(** The matcher on a run of fields is the reader of the specification:
    it fails where the reader fails and ends where the reader ends. *)
Lemma run_field_items idxs : forall s pos st,
  match read_fields (length idxs) s with
  | Some (ds, rest) =>
      exists st', run (field_items idxs) s pos st
                  = Some ((pos + length (joined ds))%nat, st')
  | None => run (field_items idxs) s pos st = None
  end.
Proof.
  induction idxs as [|g idxs IH]; intros s pos st.
  - simpl. exists st. now rewrite Nat.add_0_r.
  - cbn [length read_fields field_items].
    destruct s as [|c s1]; [done|].
    rewrite run_one. cbn [in_cls].
    destruct (chr_eqb c " "); [|done].
    cbn [run]. fold (field_items idxs).
    set (st1 := mark_open g (S pos) st).
    set (f := fun n => run (field_items idxs) (drop n s1) (S pos + n)%nat
                         (mark_close g (S pos + n)%nat st1)).
    destruct (Nat.eqb_spec (span Digit s1) 0) as [Hz|Hnz].
    { rewrite Hz. apply backtrack_below. lia. }
    pose proof (IH (drop (span Digit s1) s1) (S pos + span Digit s1)%nat
                  (mark_close g (S pos + span Digit s1)%nat st1)) as IHk.
    destruct (read_fields (length idxs) (drop (span Digit s1) s1))
      as [[ds rest]|] eqn:Hread.
    + destruct IHk as [st' Hrun]. exists st'.
      rewrite (backtrack_top f 1 (span Digit s1) _ ltac:(lia) Hrun).
      rewrite length_joined_cons, length_take, Nat.min_l by apply span_le.
      do 2 f_equal. lia.
    + apply backtrack_none. intros i Hi.
      destruct (decide (i = span Digit s1)) as [->|Hne]; [exact IHk|].
      destruct (span_inside Digit s1 i ltac:(lia)) as (c' & s' & Hdrop & Hc').
      unfold f. rewrite Hdrop.
      destruct idxs as [|g' idxs']; [done|].
      cbn [field_items]. rewrite run_one. cbn [in_cls].
      now rewrite (digit_not_space c' Hc').
Qed.

Lemma re_reading_items :
  LaCrosseSensor.re_reading
  = Some (Pattern (One (Chr "O") :: One (Chr "K") :: field_items (seq 1 21)) []).
Proof. vm_compute. reflexivity. Qed.

(** What the reader returns is a decomposition of its input. *)
Lemma read_fields_spec n : forall s ds rest,
  read_fields n s = Some (ds, rest) ->
  s = joined ds ++ rest /\ length ds = n /\ Forall (fun d => is_uint d = true) ds.
Proof.
  induction n as [|n IH]; intros s ds rest; simpl.
  - intros [= <- <-]. repeat split. constructor.
  - destruct s as [|c s1]; [done|].
    destruct (chr_eqb c " ") eqn:Hc; [|done]. apply chr_eqb_eq in Hc as ->.
    destruct (Nat.eqb_spec (span Digit s1) 0) as [|Hnz]; [done|].
    destruct (read_fields n (drop (span Digit s1) s1)) as [[ds' rest']|] eqn:Hread;
      [|done].
    intros [= <- <-]. destruct (IH _ _ _ Hread) as (Hs & Hlen & Hall).
    repeat split.
    + unfold joined. cbn [fmap list_fmap concat]. fold (joined ds').
      rewrite <- app_assoc, <- app_comm_cons, <- Hs. now rewrite take_drop.
    + simpl. now rewrite Hlen.
    + constructor; [|done]. unfold is_uint.
      destruct (take (span Digit s1) s1) eqn:Htake.
      * apply (f_equal length) in Htake. rewrite length_take in Htake.
        pose proof (span_le Digit s1). simpl in Htake. lia.
      * rewrite <- Htake. apply (span_take Digit).
Qed.

Lemma is_uint_digits d : is_uint d = true -> forallb is_digit d = true /\ d <> [].
Proof. destruct d; [done|]. unfold is_uint. now split. Qed.

Lemma joined_cons d ds : joined (d :: ds) = " "%char :: d ++ joined ds.
Proof. reflexivity. Qed.

Lemma uint_nonzero d : is_uint d = true -> (length d =? 0)%nat = false.
Proof. now destruct d. Qed.

(** Conversely the reader reads back the fields of a line; the last one
    takes the digits that follow it, if any. *)
Lemma read_fields_joined ds d rest :
  Forall (fun d => is_uint d = true) ds -> is_uint d = true ->
  read_fields (S (length ds)) (joined (ds ++ [d]) ++ rest)
  = Some (ds ++ [d ++ take (span Digit rest) rest], drop (span Digit rest) rest).
Proof.
  intros Hds Hd. induction Hds as [|d0 ds Hd0 Hds IH].
  - cbn [length app]. rewrite joined_cons. cbn [read_fields app joined].
    rewrite (proj2 (chr_eqb_eq _ _) eq_refl).
    apply is_uint_digits in Hd as [Hd Hne].
    cbn [fmap list_fmap concat]. rewrite app_nil_r, (span_app Digit d rest Hd).
    destruct (Nat.eqb_spec (length d + span Digit rest) 0) as [Hz|_].
    { destruct d; [done|simpl in Hz; lia]. }
    now rewrite drop_app_add', take_app_add' by done.
  - cbn [length app]. rewrite joined_cons.
    remember (S (length ds)) as n. cbn [read_fields app].
    rewrite (proj2 (chr_eqb_eq _ _) eq_refl).
    pose proof (is_uint_digits _ Hd0) as [Hd0' _].
    assert (Hsp : span Digit ((d0 ++ joined (ds ++ [d])) ++ rest) = length d0).
    { rewrite <- app_assoc, (span_app Digit _ _ Hd0').
      destruct ds; cbn [app]; rewrite joined_cons; simpl; lia. }
    rewrite Hsp, (uint_nonzero _ Hd0), <- app_assoc.
    now rewrite drop_app_length, take_app_length, IH.
Qed.

(** A line of the telemetry shape matches, and the match is [OK] and the
    21 fields. *)
Lemma re_reading_accepts s ds rest :
  read_fields 21 s = Some (ds, rest) ->
  exists m, re_match LaCrosseSensor.re_reading (L "OK" ++ s) = Some m
            /\ group0 m = L "OK" ++ joined ds.
Proof.
  intros Hread. unfold re_match. rewrite re_reading_items. cbn [items groupindex].
  change (L "OK" ++ s) with ("O"%char :: "K"%char :: s).
  rewrite !run_one. cbn [in_cls]. rewrite !(proj2 (chr_eqb_eq _ _) eq_refl).
  pose proof (run_field_items (seq 1 21) s 2%nat (MState [] [])) as Hrun.
  change (length (seq 1 21)) with 21%nat in Hrun. rewrite Hread in Hrun.
  destruct Hrun as [st' ->]. eexists. split; [reflexivity|].
  unfold group0. cbn [m_end m_string].
  destruct (read_fields_spec _ _ _ _ Hread) as (-> & _ & _).
  change ("O"%char :: "K"%char :: joined ds ++ rest)
    with ((L "OK" ++ joined ds) ++ rest).
  replace (2 + length (joined ds))%nat with (length (L "OK" ++ joined ds))
    by (rewrite length_app; reflexivity).
  apply take_app_length.
Qed.

(** A line that has not the telemetry shape does not match. *)
Lemma re_reading_rejects line :
  telemetry_shape line = false -> re_match LaCrosseSensor.re_reading line = None.
Proof.
  intros Hshape. unfold re_match. rewrite re_reading_items. cbn [items groupindex].
  destruct line as [|c1 [|c2 s]]; [done| |].
  { rewrite run_one. now destruct (in_cls _ _). }
  rewrite !run_one. cbn [in_cls]. unfold telemetry_shape in Hshape.
  destruct (chr_eqb c1 "O"); [|done]. destruct (chr_eqb c2 "K"); [|done].
  cbn [andb] in Hshape. apply bool_decide_eq_false in Hshape.
  pose proof (run_field_items (seq 1 21) s 2%nat (MState [] [])) as Hrun.
  change (length (seq 1 21)) with 21%nat in Hrun.
  destruct (read_fields 21 s) as [[ds rest]|]; [|now rewrite Hrun].
  destruct Hshape. eauto.
Qed.

(** *** [split] and [int] on the matched text *)

Lemma digit_not_blank c : is_digit c = true -> is_space c = false.
Proof.
  unfold is_digit, is_space, between. intros [H1 H2]%andb_prop.
  apply Nat.leb_le in H1. apply Nat.leb_le in H2.
  apply orb_false_intro; apply andb_false_iff; right; apply Nat.leb_gt; lia.
Qed.

Lemma split_ws_from_digits d : forall cur s,
  forallb is_digit d = true ->
  split_ws_from cur (d ++ s) = split_ws_from (rev d ++ cur) s.
Proof.
  induction d as [|c d IH]; intros cur s; [done|].
  intros [Hc Hd]%andb_prop. cbn [app split_ws_from].
  rewrite (digit_not_blank c Hc), (IH _ _ Hd). simpl rev.
  now rewrite <- app_assoc.
Qed.

Lemma split_ws_from_joined ds : forall cur,
  cur <> [] -> Forall (fun d => is_uint d = true) ds ->
  split_ws_from cur (joined ds) = rev cur :: ds.
Proof.
  induction ds as [|d ds IH]; intros cur Hcur Hall.
  - now destruct cur.
  - inversion Hall as [|? ? Hd Hds]; subst. rewrite joined_cons.
    apply is_uint_digits in Hd as [Hd Hne].
    cbn [split_ws_from]. change (is_space " ") with true. cbv iota.
    destruct cur as [|c cur]; [done|].
    rewrite (split_ws_from_digits d [] _ Hd), app_nil_r.
    rewrite IH; [now rewrite rev_involutive| |done].
    intros Hrev. apply Hne. apply (f_equal (@rev ascii)) in Hrev.
    now rewrite rev_involutive in Hrev.
Qed.

Lemma split_ws_matched ds :
  Forall (fun d => is_uint d = true) ds ->
  split_ws (L "OK" ++ joined ds) = L "OK" :: ds.
Proof.
  intros Hall. unfold split_ws.
  change (L "OK" ++ joined ds) with ("O"%char :: "K"%char :: joined ds).
  cbn [split_ws_from]. change (is_space "O") with false.
  change (is_space "K") with false. cbv iota.
  now rewrite split_ws_from_joined.
Qed.

Lemma comprehension_int_of ds :
  Forall (fun d => is_uint d = true) ds ->
  comprehension int_of ds = Ok (decimal <$> ds).
Proof.
  induction 1 as [|d ds Hd Hds IH]; [done|].
  cbn [comprehension]. rewrite IH. unfold int_of. rewrite Hd. reflexivity.
Qed.



(** Below 256 the padded rendering has exactly its two hexadecimal digits. *)
Lemma format_02X_byte b : 0 <= b < 256 -> format_02X b = hex2 b.
Proof.
  intros Hb.
  assert (Hall : forallb (fun n => bool_decide
            (format_02X (Z.of_nat n) = hex2 (Z.of_nat n))) (seq 0 256) = true)
    by (vm_compute; reflexivity).
  rewrite forallb_forall in Hall.
  assert (Hin : In (Z.to_nat b) (seq 0 256)) by (apply in_seq; lia).
  apply Hall in Hin. rewrite Z2Nat.id in Hin by lia.
  now apply bool_decide_eq_true in Hin.
Qed.

(** On a line of the telemetry shape [_parse] makes its eight assignments
    from the values of the fields. *)
Lemma parse_matched self s ds rest :
  read_fields 21 s = Some (ds, rest) ->
  LaCrosseSensor._parse self (L "OK" ++ s) = LaCrosseSensor.assign (decimal <$> ds).
Proof.
  intros Hread. unfold LaCrosseSensor._parse.
  destruct (re_reading_accepts _ _ _ Hread) as (m & -> & ->).
  destruct (read_fields_spec _ _ _ _ Hread) as (_ & _ & Hall).
  rewrite (split_ws_matched _ Hall). cbn [tail].
  now rewrite (comprehension_int_of _ Hall).
Qed.

Lemma parse_unmatched self line :
  telemetry_shape line = false -> LaCrosseSensor._parse self line = Ok self.
Proof.
  intros H. unfold LaCrosseSensor._parse. now rewrite (re_reading_rejects _ H).
Qed.




(** The shape is the one of the specification: [OK], then 21 fields, each a
    space and a non-empty run of decimal digits, then anything. *)
Lemma telemetry_shape_spec line :
  telemetry_shape line = true <->
  exists ds rest, length ds = 21%nat
                  /\ Forall (fun d => is_uint d = true) ds
                  /\ line = telemetry_line ds rest.
Proof.
  split.
  - intros Hshape. destruct line as [|c1 [|c2 s]]; try discriminate Hshape.
    unfold telemetry_shape in Hshape.
    apply andb_prop in Hshape as [[->%chr_eqb_eq ->%chr_eqb_eq]%andb_prop H].
    apply bool_decide_eq_true in H as [[ds rest] Hread].
    destruct (read_fields_spec _ _ _ _ Hread) as (-> & Hlen & Hall).
    now exists ds, rest.
  - intros (ds & rest & Hlen & Hall & ->).
    destruct (exists_last (l := ds)) as (ds0 & d & ->); [now destruct ds|].
    apply Forall_app in Hall as [Hall0 Hd]. inversion Hd; subst.
    rewrite length_app in Hlen. simpl in Hlen.
    unfold telemetry_line, telemetry_shape. cbn [L list_ascii_of_string app].
    replace 21%nat with (S (length ds0)) by lia.
    rewrite read_fields_joined by done.
    apply andb_true_intro; split; [reflexivity|].
    apply bool_decide_eq_true. eauto.
Qed.

(** The pattern accepts exactly the lines of the telemetry shape. *)
Lemma re_reading_match_shape line :
  is_Some (re_match LaCrosseSensor.re_reading line) <-> telemetry_shape line = true.
Proof.
  split.
  - intros [m Hm]. destruct (telemetry_shape line) eqn:E; [done|].
    now rewrite (re_reading_rejects _ E) in Hm.
  - intros Hshape. destruct line as [|c1 [|c2 s]]; try discriminate Hshape.
    unfold telemetry_shape in Hshape.
    apply andb_prop in Hshape as [[->%chr_eqb_eq ->%chr_eqb_eq]%andb_prop H].
    apply bool_decide_eq_true in H as [[ds rest] Hread].
    destruct (re_reading_accepts _ _ _ Hread) as (m & Hm & _). now exists m.
Qed.

(** The three cases the specification names, each without the shape. *)
Lemma no_shape_without_prefix line :
  take 2 line <> L "OK" -> telemetry_shape line = false.
Proof.
  destruct line as [|c1 [|c2 s]]; [done..|]. unfold telemetry_shape. simpl take.
  intros Hne. destruct (chr_eqb c1 "O") eqn:E1; [|done].
  destruct (chr_eqb c2 "K") eqn:E2; [|done].
  apply chr_eqb_eq in E1 as ->. apply chr_eqb_eq in E2 as ->. now destruct Hne.
Qed.

Lemma read_fields_short ds : forall n,
  (length ds < n)%nat -> Forall (fun d => is_uint d = true) ds ->
  read_fields n (joined ds) = None.
Proof.
  induction ds as [|d ds IH]; intros [|n] Hlen Hall; simpl in Hlen; try lia.
  - reflexivity.
  - inversion Hall as [|? ? Hd Hds]; subst. rewrite joined_cons.
    cbn [read_fields]. rewrite (proj2 (chr_eqb_eq _ _) eq_refl).
    pose proof (is_uint_digits _ Hd) as [Hd' _].
    assert (Hsp : span Digit (d ++ joined ds) = length d).
    { rewrite (span_app Digit _ _ Hd'). destruct ds; [simpl; lia|].
      rewrite joined_cons. simpl. lia. }
    rewrite Hsp, (uint_nonzero _ Hd), drop_app_length, IH; [done|lia|done].
Qed.

Lemma no_shape_with_fewer_fields ds :
  (length ds < 21)%nat -> Forall (fun d => is_uint d = true) ds ->
  telemetry_shape (telemetry_line ds []) = false.
Proof.
  intros Hlen Hall. unfold telemetry_line, telemetry_shape.
  cbn [L list_ascii_of_string app]. rewrite app_nil_r.
  rewrite (read_fields_short ds 21 Hlen Hall).
  apply andb_false_intro2, bool_decide_eq_false. now intros [? ?].
Qed.

Lemma span_short k t s :
  (span k t < length t)%nat -> span k (t ++ s) = span k t.
Proof.
  induction t as [|c t IH]; simpl; [lia|].
  destruct (in_cls k c); [|done]. intros H. rewrite IH; [done|lia].
Qed.

Lemma span_all k t : span k t = length t -> forallb (in_cls k) t = true.
Proof.
  intros H. rewrite <- (take_ge t (span k t)) by lia. apply span_take.
Qed.

(** A token among the first 20 that is not a run of digits, where [ds] are
    the fields before it: the line has not the shape. *)
Lemma read_fields_bad_field ds : forall n t rest,
  Forall (fun d => is_uint d = true) ds ->
  is_uint t = false -> lacks " " t = true ->
  (length ds + 2 <= n)%nat ->
  read_fields n (joined ds ++ " "%char :: t ++ " "%char :: rest) = None.
Proof.
  induction ds as [|d ds IH]; intros n t rest Hall Ht Hsp Hn.
  - destruct n as [|[|n]]; simpl in Hn; try lia.
    cbn [joined fmap list_fmap concat app]. remember (S n) as n1.
    cbn [read_fields]. rewrite (proj2 (chr_eqb_eq _ _) eq_refl).
    destruct (Nat.eqb_spec (span Digit (t ++ " "%char :: rest)) 0) as [|Hnz]; [done|].
    assert (Hshort : (span Digit t < length t)%nat).
    { pose proof (span_le Digit t) as Hle.
      destruct (decide (span Digit t = length t)) as [Heq|]; [|lia].
      apply span_all in Heq. destruct t as [|c t].
      - simpl in Hnz. lia.
      - unfold is_uint in Ht. change (forallb is_digit (c :: t) = true) in Heq.
        congruence. }
    rewrite (span_short Digit t _ Hshort), drop_app_le by lia.
    destruct (span_inside_not Digit t Hshort) as (c & t' & Hdrop & Hc).
    rewrite Hdrop. subst n1. cbn [app read_fields].
    pose proof (lacks_drop " " t (span Digit t) Hsp) as Hl.
    rewrite Hdrop, lacks_cons in Hl. apply andb_prop in Hl as [Hl _].
    apply negb_true_iff in Hl. now rewrite Hl.
  - inversion Hall as [|? ? Hd Hds]; subst. destruct n as [|n]; simpl in Hn; [lia|].
    rewrite joined_cons. cbn [app read_fields].
    rewrite (proj2 (chr_eqb_eq _ _) eq_refl).
    pose proof (is_uint_digits _ Hd) as [Hd' _].
    assert (Hsp' : span Digit (d ++ joined ds ++ " "%char :: t ++ " "%char :: rest)
                   = length d).
    { rewrite (span_app Digit _ _ Hd'). destruct ds; [simpl; lia|].
      rewrite joined_cons. simpl. lia. }
    rewrite <- app_assoc, Hsp', (uint_nonzero _ Hd), drop_app_length.
    rewrite IH; [done..|lia].
Qed.

Lemma no_shape_with_bad_field ds t rest :
  Forall (fun d => is_uint d = true) ds ->
  is_uint t = false -> lacks " " t = true -> (length ds < 20)%nat ->
  telemetry_shape (L "OK" ++ joined ds ++ L " " ++ t ++ L " " ++ rest) = false.
Proof.
  intros Hall Ht Hsp Hlen. unfold telemetry_shape.
  cbn [L list_ascii_of_string app].
  rewrite (read_fields_bad_field ds 21 t rest Hall Ht Hsp) by lia.
  apply andb_false_intro2, bool_decide_eq_false. now intros [? ?].
Qed.

(** C4 (as amended). [_parse] finds no match, and leaves the instance as
    it was without raising, on every line that has not the telemetry shape,
    which is [OK] and then 21 fields, each one space and then a non-empty
    run of decimal digits.  Such are: a line that does not begin with [OK];
    a line of fewer than 21 fields; a line that has, among its first 20
    fields, a token that is not a run of digits. *)
Theorem parse_reading_no_match :
  (forall self line,
     telemetry_shape line = false ->
     re_match LaCrosseSensor.re_reading line = None
     /\ LaCrosseSensor._parse self line = Ok self)
  /\ (forall line, take 2 line <> L "OK" -> telemetry_shape line = false)
  /\ (forall ds,
        (length ds < 21)%nat -> Forall (fun d => is_uint d = true) ds ->
        telemetry_shape (telemetry_line ds []) = false)
  /\ (forall ds t rest,
        Forall (fun d => is_uint d = true) ds ->
        is_uint t = false -> lacks " " t = true -> (length ds < 20)%nat ->
        telemetry_shape (L "OK" ++ joined ds ++ L " " ++ t ++ L " " ++ rest) = false).
Proof.
  split; [|split; [|split]].
  - intros self line H.
    split; [now apply re_reading_rejects|now apply parse_unmatched].
  - exact no_shape_without_prefix.
  - exact no_shape_with_fewer_fields.
  - exact no_shape_with_bad_field.
Qed.

Lemma parse_reading_no_match_witness :
  re_match LaCrosseSensor.re_reading (L "OK 9 248 1 4 150 106") = None
  /\ LaCrosseSensor._parse LaCrosseSensor.blank (L "OK 9 248 1 4 150 106")
     = Ok LaCrosseSensor.blank.
Proof.
  apply (proj1 parse_reading_no_match LaCrosseSensor.blank (L "OK 9 248 1 4 150 106")).
  vm_compute. reflexivity.
Defined.

(** C4 (as stated) fails on a 21st token that starts with a digit and goes
    on with something else: the line has only 20 integer tokens after [OK],
    its 21st token is not an integer, and [_parse] still finds a match and
    sets the fields. *)
Lemma glued_suffix_still_matches :
  let line := L "OK 22 121 49 3 222 240 0 1 82 87 121 0 4 148 225 0 0 38 229 1 0x" in
  tail (split_ws line) !! 20%nat = Some (L "0x")
  /\ int_of (L "0x") = Raise ValueError
  /\ length (filter (fun t => is_uint t = true) (tail (split_ws line))) = 20%nat
  /\ is_Some (re_match LaCrosseSensor.re_reading line)
  /\ LaCrosseSensor._parse LaCrosseSensor.blank line
     = Ok {| LaCrosseSensor.sensortype := Some 22;
             LaCrosseSensor.sensorid := Some (L "7931");
             LaCrosseSensor.ontime := Some 64942080;
             LaCrosseSensor.totaltime := Some 22173561;
             LaCrosseSensor.energy := Some 300257;
             LaCrosseSensor.power := Some 0;
             LaCrosseSensor.maxpower := Some 9957;
             LaCrosseSensor.resets := Some 1 |}.
Proof.
  cbv zeta. repeat split; try (vm_compute; reflexivity).
  apply re_reading_match_shape. vm_compute. reflexivity.
Qed.

(** C10. A [LaCrosseSensor] made from a line that does not match the
    pattern, or from no line, is made without an exception and has none of
    the eight reading attributes: reading any of them, and [__repr__], raise
    [AttributeError]. *)
Theorem unparsed_sensor_has_no_fields line :
  re_match LaCrosseSensor.re_reading line = None ->
  LaCrosseSensor.__init__ (Some line) = Ok LaCrosseSensor.blank
  /\ LaCrosseSensor.__init__ None = Ok LaCrosseSensor.blank
  /\ attr (LaCrosseSensor.sensortype LaCrosseSensor.blank) = Raise AttributeError
  /\ attr (LaCrosseSensor.sensorid LaCrosseSensor.blank) = Raise AttributeError
  /\ attr (LaCrosseSensor.ontime LaCrosseSensor.blank) = Raise AttributeError
  /\ attr (LaCrosseSensor.totaltime LaCrosseSensor.blank) = Raise AttributeError
  /\ attr (LaCrosseSensor.energy LaCrosseSensor.blank) = Raise AttributeError
  /\ attr (LaCrosseSensor.power LaCrosseSensor.blank) = Raise AttributeError
  /\ attr (LaCrosseSensor.maxpower LaCrosseSensor.blank) = Raise AttributeError
  /\ attr (LaCrosseSensor.resets LaCrosseSensor.blank) = Raise AttributeError
  /\ LaCrosseSensor.__repr__ LaCrosseSensor.blank = Raise AttributeError.
Proof.
  intros Hno. repeat split.
  destruct line as [|c l]; [reflexivity|].
  unfold LaCrosseSensor.__init__, LaCrosseSensor._parse. now rewrite Hno.
Qed.

Lemma unparsed_sensor_has_no_fields_witness :
  LaCrosseSensor.__init__ (Some (L "[LaCrosseITPlusReader.10.1s (RFM12B f:0 r:17241)]"))
  = Ok LaCrosseSensor.blank.
Proof.
  refine (proj1 (unparsed_sensor_has_no_fields
            (L "[LaCrosseITPlusReader.10.1s (RFM12B f:0 r:17241)]") _)).
  vm_compute. reflexivity.
Defined.

(* ================================================================== *)
(** ** The session                                                      *)
(* ================================================================== *)

Section SessionFacts.

Import LaCrosseGateway.

Context {Callback UserData : Type}.

Abbreviation gateway := (@gateway Callback UserData).
Abbreviation world := (@world Callback UserData).
Abbreviation shared := (@shared Callback UserData).

(** *** Commands *)

Lemma write_cmd_connected (g : gateway) sk cmd :
  _socket g = Some sk -> is_open sk = true ->
  _write_cmd g cmd
  = Ok (with_socket g (Socket (inbox sk) (sent sk ++ [cmd ++ CRLF]) true)).
Proof. intros Hsk Hopen. unfold _write_cmd. rewrite Hsk. cbn. now rewrite Hopen. Qed.


(** *** The worker handle *)

Lemma worker_inv_exec (w : world) o : worker_inv w -> worker_inv (exec w o).
Proof.
  unfold worker_inv.
  destruct w as [d [h p cb cbd sk ev th] ts]. destruct o; intros Hinv.
  - exact Hinv.
  - destruct sk, th; simpl in *; try done;
      destruct Hinv as [-> Hlen]; now rewrite length_insert.
  - destruct th; simpl in *; [done|]. now subst ts.
  - exact Hinv.
  - exact Hinv.
  - unfold exec, set_with, _write_cmd. cbn [self].
    destruct (cmds _ _ _); [|exact Hinv].
    destruct sk as [[i s []]|]; exact Hinv.
  - unfold exec, get_info, _write_cmd. cbn [self _socket].
    destruct sk as [[i s []]|]; try exact Hinv.
    cbn [attr mbind res_bind is_open with_socket _socket inbox sent].
    destruct (get_info_from _ _ _) as [[[r' i'] s']|]; exact Hinv.
  - unfold exec. cbn [self dicts].
    destruct (_refresh_body d _ raw) as [[d' c]|]; exact Hinv.
Qed.

Lemma worker_inv_reachable host port (w : world) :
  reachable host port w -> worker_inv w.
Proof. induction 1 as [d|w o _ IH]; [done|now apply worker_inv_exec]. Qed.

(** C8. In every state a session reaches it has started at most one
    background thread, so at most one runs; [start_scan] while one runs
    changes nothing, neither the handle nor the threads; and [start_scan]
    twice is [start_scan] once. *)
Theorem start_scan_single_worker host port (w : world) :
  reachable host port w ->
  (length (threads w) <= 1)%nat
  /\ (running w <= 1)%nat
  /\ ((0 < running w)%nat -> start_scan w = w)
  /\ start_scan (start_scan w) = start_scan w
  /\ (length (threads (start_scan w)) <= 1)%nat.
Proof.
  intros Hreach.
  pose proof (worker_inv_reachable _ _ _ Hreach) as Hinv.
  pose proof (worker_inv_reachable _ _ _ (reach_step _ _ _ OpStartScan Hreach))
    as Hinv'.
  cbn [exec] in Hinv'.
  assert (Hlen : forall v : world, worker_inv v -> (length (threads v) <= 1)%nat).
  { intros v Hv. unfold worker_inv in Hv.
    destruct (_thread (self v)); [lia|]. rewrite Hv. simpl. lia. }
  assert (Hrun : (running w <= length (threads w))%nat)
    by apply length_filter.
  pose proof (Hlen w Hinv). repeat split; [done|lia| |  |exact (Hlen _ Hinv')].
  - intros Hpos. unfold start_scan, _start_worker.
    unfold worker_inv in Hinv. destruct (_thread (self w)); [done|].
    unfold running in Hpos. rewrite Hinv in Hpos. simpl in Hpos. lia.
  - unfold start_scan, _start_worker.
    destruct (_thread (self w)) eqn:Hth; [now rewrite Hth|]. done.
Qed.

(** *** [get_info] *)

Lemma get_info_from_first pre raw post : forall x sent,
  (x < 10)%nat ->
  Forall (fun c => re_match re_brackets (strip_crlf c) = None) pre ->
  is_Some (re_match re_brackets (strip_crlf raw)) ->
  get_info_from (pre ++ raw :: post) x sent
  = Some (_parse_info (strip_crlf raw), post,
          sent ++ repeat (L "v" ++ CRLF) ((x + length pre) / 10)).
Proof.
  induction pre as [|c pre IH]; intros x sent Hx Hpre [m Hm].
  - cbn [app get_info_from length]. rewrite Hm, Nat.add_0_r.
    rewrite Nat.div_small by done. now rewrite app_nil_r.
  - inversion Hpre as [|? ? Hc Hpre']; subst.
    cbn [app get_info_from length]. rewrite Hc.
    destruct (Nat.ltb_spec (S x) 10) as [Hlt|Hge].
    + rewrite IH by eauto. now rewrite Nat.add_succ_r.
    + rewrite IH by (eauto; lia). assert (x = 9)%nat as -> by lia.
      replace (9 + S (length pre))%nat with (1 * 10 + length pre)%nat by lia.
      rewrite Nat.div_add_l by done. cbn [repeat Nat.add].
      now rewrite <- app_assoc.
Qed.

(** C6. [get_info] writes [v], reads chunk after chunk, writes [v] again
    after every ten chunks that are not a bracketed line, and returns what
    [_parse_info] makes of the first bracketed line: when that is the
    dictionary [d], [get_info] returns [d], having taken the chunks up to
    that line off the socket and written [v] once and once more for every
    ten chunks before it. *)
Theorem get_info_first_bracketed_line (g : gateway) sk pre raw post d :
  _socket g = Some sk -> is_open sk = true ->
  inbox sk = pre ++ raw :: post ->
  Forall (fun c => re_match re_brackets (strip_crlf c) = None) pre ->
  is_Some (re_match re_brackets (strip_crlf raw)) ->
  _parse_info (strip_crlf raw) = Ok d ->
  get_info g
  = Some (Ok d,
          with_socket g
            (Socket post
               (sent sk ++ repeat (L "v" ++ CRLF) (1 + length pre / 10)) true)).
Proof.
  intros Hsk Hopen Hin Hpre Hraw Hd. unfold get_info.
  rewrite (write_cmd_connected g sk _ Hsk Hopen).
  cbn [with_socket _socket inbox sent is_open]. rewrite Hin.
  rewrite (get_info_from_first pre raw post 0 _ ltac:(lia) Hpre Hraw), Hd.
  cbn [Nat.add repeat]. now rewrite <- app_assoc.
Qed.

(** *** The ingestion loop *)

Lemma assign_total data :
  length data = 21%nat ->
  exists r sid, LaCrosseSensor.assign data = Ok r
                /\ LaCrosseSensor.sensorid r = Some sid.
Proof.
  intros Hlen. do 21 (destruct data as [|? data]; [discriminate Hlen|]).
  cbn. eauto.
Qed.

(** A line the pattern matches is decoded, without an exception, into an
    instance that has its identifier. *)
Lemma parse_of_match self line :
  is_Some (re_match LaCrosseSensor.re_reading line) ->
  exists r sid, LaCrosseSensor._parse self line = Ok r
                /\ LaCrosseSensor.sensorid r = Some sid.
Proof.
  intros Hm%re_reading_match_shape.
  destruct line as [|c1 [|c2 s]]; try discriminate Hm.
  unfold Reference.telemetry_shape in Hm.
  apply andb_prop in Hm as [[->%chr_eqb_eq ->%chr_eqb_eq]%andb_prop H].
  apply bool_decide_eq_true in H as [[ds rest] Hread].
  change ("O"%char :: "K"%char :: s) with (L "OK" ++ s).
  rewrite (parse_matched self _ _ _ Hread).
  destruct (read_fields_spec _ _ _ _ Hread) as (_ & Hlen & _).
  apply assign_total. now rewrite length_fmap.
Qed.

Lemma registry_register (d : shared) s f u sid :
  default [] (_registry (register_callback d s f u) !! sid)
  = default [] (_registry d !! sid) ++ (if decide (s = sid) then [(f, u)] else []).
Proof.
  unfold register_callback. cbn [_registry].
  destruct (decide (s = sid)) as [->|Hne].
  - rewrite lookup_insert_eq. cbn [default].
    destruct (_registry d !! sid) eqn:E; [now rewrite E|].
    now rewrite lookup_insert_eq.
  - rewrite lookup_insert_ne, app_nil_r by done.
    destruct (_registry d !! s); [done|]. now rewrite lookup_insert_ne.
Qed.

Lemma sensors_register (d : shared) s f u :
  sensors (register_callback d s f u) = sensors d.
Proof. reflexivity. Qed.

(** The callbacks a series of [register_callback] calls leaves for an
    identifier are those it had, then the new ones in the order of the
    calls. *)
Lemma registry_after (regs : list (str * (Callback * option UserData))) :
  forall (d : shared) sid,
  let d' := foldl (fun d r => register_callback d r.1 r.2.1 r.2.2) d regs in
  sensors d' = sensors d
  /\ default [] (_registry d' !! sid)
     = default [] (_registry d !! sid) ++ (snd <$> filter (fun r => r.1 = sid) regs).
Proof.
  induction regs as [|[s [f u]] regs IH]; intros d sid; cbn [foldl fst snd].
  - now rewrite app_nil_r.
  - destruct (IH (register_callback d s f u) sid) as [Hs Hr]. cbn zeta.
    split; [now rewrite Hs|].
    rewrite Hr, registry_register, <- app_assoc.
    f_equal. rewrite filter_cons. cbn [fst]. now destruct (decide (s = sid)).
Qed.

Lemma init_of_match line :
  is_Some (re_match LaCrosseSensor.re_reading line) ->
  exists r sid, LaCrosseSensor.__init__ (Some line) = Ok r
                /\ LaCrosseSensor.sensorid r = Some sid.
Proof.
  intros Hm. destruct line as [|c l]; [|now apply parse_of_match].
  destruct Hm as [m Hm]. vm_compute in Hm. discriminate Hm.
Qed.

Lemma refresh_body_match (d : shared) (g : gateway) raw :
  is_Some (re_match LaCrosseSensor.re_reading (strip_crlf raw)) ->
  exists sensor sid,
    LaCrosseSensor.__init__ (Some (strip_crlf raw)) = Ok sensor
    /\ LaCrosseSensor.sensorid sensor = Some sid
    /\ _refresh_body d g raw
       = Ok (Shared (<[sid := sensor]> (sensors d)) (_registry d),
             dispatch g sensor (default [] (_registry d !! sid))).
Proof.
  intros Hm. destruct (init_of_match _ Hm) as (sensor & sid & Hinit & Hsid).
  exists sensor, sid. split; [exact Hinit|]. split; [exact Hsid|].
  unfold _refresh_body. destruct Hm as [m ->]. rewrite Hinit.
  cbn [mbind res_bind]. rewrite Hsid. cbn [attr _registry].
  unfold dispatch. cbn [mbind res_bind]. now destruct (_registry d !! sid).
Qed.

(** The loop raises on no chunk and leaves the registry as it is. *)
Lemma refresh_total (g : gateway) chunks : forall d : shared,
  exists d' calls, _refresh d g chunks = Ok (d', calls)
                   /\ _registry d' = _registry d.
Proof.
  induction chunks as [|raw chunks IH]; intros d; [now exists d, []|].
  cbn [_refresh].
  assert (Hbody : exists d1 c1, _refresh_body d g raw = Ok (d1, c1)
                                /\ _registry d1 = _registry d).
  { destruct (re_match LaCrosseSensor.re_reading (strip_crlf raw)) as [m|] eqn:Hm.
    - destruct (refresh_body_match d g raw) as (sensor & sid & _ & _ & ->);
        [now rewrite Hm|]. eauto.
    - unfold _refresh_body. rewrite Hm. eauto. }
  destruct Hbody as (d1 & c1 & -> & Hreg).
  destruct (IH d1) as (d2 & c2 & Hrest & Hreg').
  cbn [mbind res_bind fst snd]. rewrite Hrest. cbn [fst snd].
  exists d2, (c1 ++ c2). split; [done|congruence].
Qed.

Lemma bind_ok {A B} (a : A) (k : A -> res B) : (Ok a ≫= k) = k a.
Proof. reflexivity. Qed.

Lemma refresh_cons (d : shared) (g : gateway) raw chunks :
  _refresh d g (raw :: chunks)
  = r ← _refresh_body d g raw; r' ← _refresh r.1 g chunks; Ok (r'.1, r.2 ++ r'.2).
Proof. reflexivity. Qed.

Lemma refresh_app (g : gateway) pre post : forall d : shared,
  _refresh d g (pre ++ post)
  = r ← _refresh d g pre; r' ← _refresh r.1 g post; Ok (r'.1, r.2 ++ r'.2).
Proof.
  induction pre as [|raw pre IH]; intros d.
  - cbn [app _refresh mbind res_bind fst snd].
    now destruct (_refresh d g post) as [[d' c]|].
  - rewrite <- app_comm_cons, !refresh_cons.
    destruct (_refresh_body d g raw) as [[d1 c1]|]; [|done].
    cbn [mbind res_bind fst snd]. rewrite IH.
    destruct (_refresh d1 g pre) as [[d2 c2]|]; [|done].
    cbn [mbind res_bind fst snd].
    destruct (_refresh d2 g post) as [[d3 c3]|]; [|done].
    cbn [mbind res_bind fst snd]. now rewrite app_assoc.
Qed.

(** C2. Let callbacks be registered with [register_callback], in the
    order of [regs], and let the loop then receive the chunks [pre], then a
    chunk [raw] whose line matches the reading pattern, then [post].  The
    loop decodes the line into a sensor that has an identifier [sid];
    stores the sensor under [sid] in [sensors], over whatever was there;
    calls the catch-all callback if one is installed; then calls every
    callback registered for [sid], those of before and then those of
    [regs], in the order of registration; and goes on with [post]. *)
Theorem refresh_dispatches_reading (d0 : shared) (g : gateway)
    (regs : list (str * (Callback * option UserData))) pre raw post :
  is_Some (re_match LaCrosseSensor.re_reading (strip_crlf raw)) ->
  let d := foldl (fun d r => register_callback d r.1 r.2.1 r.2.2) d0 regs in
  exists sensor sid d1 calls1 d2 calls2,
    LaCrosseSensor.__init__ (Some (strip_crlf raw)) = Ok sensor
    /\ LaCrosseSensor.sensorid sensor = Some sid
    /\ _refresh d g pre = Ok (d1, calls1)
    /\ _refresh_body d1 g raw
       = Ok (Shared (<[sid := sensor]> (sensors d1)) (_registry d1),
             dispatch g sensor
               (default [] (_registry d0 !! sid)
                ++ (snd <$> filter (fun r => r.1 = sid) regs)))
    /\ _refresh (Shared (<[sid := sensor]> (sensors d1)) (_registry d1)) g post
       = Ok (d2, calls2)
    /\ _refresh d g (pre ++ raw :: post)
       = Ok (d2,
             calls1
             ++ dispatch g sensor
                  (default [] (_registry d0 !! sid)
                   ++ (snd <$> filter (fun r => r.1 = sid) regs))
             ++ calls2).
Proof.
  intros Hm d.
  destruct (refresh_total g pre d) as (d1 & calls1 & Hpre & Hreg).
  destruct (refresh_body_match d1 g raw Hm) as (sensor & sid & Hinit & Hsid & Hbody).
  destruct (refresh_total g post
              (Shared (<[sid := sensor]> (sensors d1)) (_registry d1)))
    as (d2 & calls2 & Hpost & _).
  destruct (registry_after regs d0 sid) as [_ Hregs]. cbn zeta in Hregs.
  fold d in Hregs. rewrite <- Hreg in Hregs. rewrite Hregs in Hbody.
  exists sensor, sid, d1, calls1, d2, calls2.
  split; [exact Hinit|]. split; [exact Hsid|]. split; [exact Hpre|].
  split; [exact Hbody|]. split; [exact Hpost|].
  rewrite refresh_app, Hpre, bind_ok, refresh_cons. cbn [fst].
  rewrite Hbody, bind_ok. cbn [fst]. rewrite Hpost. reflexivity.
Qed.

End SessionFacts.

(* ================================================================== *)
(** ** The info line                                                    *)
(* ================================================================== *)

Lemma re_info_items :
  LaCrosseGateway.re_info
  = Some (Pattern
      [One (Chr "["); Open 1; Rep Word 1; One (Chr "."); Rep Word 1; Close 1;
       One Dot; Open 2; Rep Dot 0; Close 2;
       One (Chr " "); One (Chr "("); One (Chr "1"); One (Chr "=");
       Open 3; Rep Word 1; Close 3; One (Chr " ");
       Open 4; Rep Word 1; Close 4; One (Chr ":");
       Open 5; Rep Digit 1; Close 5; One (Chr " ");
       Open 6; Rep Dot 0; Close 6;
       One (Chr ")"); One (Chr " "); One (Chr "{"); One (Chr "I"); One (Chr "P");
       One (Chr "="); Open 7; Rep Dot 0; Close 7; One (Chr "}"); One (Chr "]")]
      [("name", 1); ("ver", 2); ("rfm1name", 3); ("rfm1freq", 5);
       ("rfm1mode", 6); ("address", 7)]%nat).
Proof. vm_compute. reflexivity. Qed.

(** *** Steps of a successful match

    The position is kept as the length of the text read so far. *)

Lemma step_one k re c s pre st r :
  in_cls k c = true ->
  run re s (length (pre ++ [c])) st = Some r ->
  run (One k :: re) (c :: s) (length pre) st = Some r.
Proof.
  intros Hc Hrun. rewrite run_one, Hc. rewrite length_app in Hrun.
  simpl length in Hrun. now rewrite Nat.add_1_r in Hrun.
Qed.

Lemma step_open g re s pos st r :
  run re s pos (mark_open g pos st) = Some r -> run (Open g :: re) s pos st = Some r.
Proof. intros H; exact H. Qed.

Lemma step_close g re s pos st r :
  run re s pos (mark_close g pos st) = Some r -> run (Close g :: re) s pos st = Some r.
Proof. intros H; exact H. Qed.

(** A greedy repetition takes [x] when no longer run lets the rest of the
    pattern match and [x] itself does. *)
Lemma step_rep k lo re x s pre st r :
  forallb (in_cls k) x = true -> (lo <= length x)%nat ->
  (forall j, (1 <= j <= span k s)%nat ->
             run re (drop j s) (length pre + (length x + j))%nat st = None) ->
  run re s (length (pre ++ x)) st = Some r ->
  run (Rep k lo :: re) (x ++ s) (length pre) st = Some r.
Proof.
  intros Hx Hlo Hfail Hrun. rewrite run_rep, (span_app k x s Hx).
  rewrite (backtrack_skip _ lo (length x)); [|lia|].
  - apply backtrack_top; [done|]. rewrite drop_app_length.
    now rewrite length_app in Hrun.
  - intros i Hi. replace i with (length x + (i - length x))%nat by lia.
    rewrite drop_app_add'; [|done]. apply Hfail. lia.
Qed.

Lemma span_stop k c s : in_cls k c = false -> span k (c :: s) = 0%nat.
Proof. intros H. simpl. now rewrite H. Qed.

(** The rest of the pattern fails at once on a text that does not start
    with its first literal characters. *)
Lemma fail_close_one g a re s p st :
  (forall t, s <> a :: t) -> run (Close g :: One (Chr a) :: re) s p st = None.
Proof.
  intros Hne. cbn [run]. destruct s as [|c s]; [done|]. cbn [in_cls].
  destruct (chr_eqb c a) eqn:E; [|done]. apply chr_eqb_eq in E as ->.
  now destruct (Hne s).
Qed.

Lemma fail_close_two g a b re s p st :
  (forall t, s <> a :: b :: t) ->
  run (Close g :: One (Chr a) :: One (Chr b) :: re) s p st = None.
Proof.
  intros Hne. cbn [run]. destruct s as [|c s]; [done|]. cbn [in_cls].
  destruct (chr_eqb c a) eqn:E; [|done]. apply chr_eqb_eq in E as ->.
  destruct s as [|c' s]; [done|].
  destruct (chr_eqb c' b) eqn:E'; [|done]. apply chr_eqb_eq in E' as ->.
  now destruct (Hne s).
Qed.

Lemma drop_lacks_one a R j t :
  lacks a R = true -> (1 <= j)%nat -> drop j (a :: R) <> a :: t.
Proof.
  intros HR Hj Heq. destruct j as [|j]; [lia|]. simpl in Heq.
  pose proof (lacks_drop a R j HR) as H. rewrite Heq in H.
  now rewrite lacks_head in H.
Qed.

Lemma drop_lacks_two a b R j t :
  a <> b -> lacks b R = true -> (1 <= j)%nat -> drop j (a :: b :: R) <> a :: b :: t.
Proof.
  intros Hab HR Hj Heq. destruct j as [|[|j]]; [lia| |]; simpl in Heq.
  - injection Heq as Hba _. now destruct Hab.
  - pose proof (lacks_drop b R j HR) as H. rewrite Heq in H.
    rewrite lacks_cons in H. apply andb_prop in H as [_ H].
    now rewrite lacks_head in H.
Qed.

Lemma lacks_app c x y : lacks c (x ++ y) = lacks c x && lacks c y.
Proof. apply forallb_app. Qed.

Lemma lacks_class k c x :
  in_cls k c = false -> forallb (in_cls k) x = true -> lacks c x = true.
Proof.
  intros Hc. induction x as [|a x IH]; [done|]. cbn [forallb].
  intros [Ha Hx]%andb_prop. rewrite lacks_cons, (IH Hx), andb_true_r.
  destruct (chr_eqb a c) eqn:E; [|done]. apply chr_eqb_eq in E as ->. congruence.
Qed.

(** The text of a group whose span is the lengths of two prefixes. *)
Lemma take_drop_span (p g rest : str) :
  take (length (p ++ g) - length p) (drop (length p) (p ++ g ++ rest)) = g.
Proof.
  rewrite drop_app_length, length_app.
  replace (length p + length g - length p)%nat with (length g) by lia.
  apply take_app_length.
Qed.

Lemma take_drop_between (p q g line rest : str) :
  q = p ++ g -> line = q ++ rest ->
  take (length q - length p) (drop (length p) line) = g.
Proof. intros -> ->. rewrite <- app_assoc. apply take_drop_span. Qed.

Ltac span_text :=
  eapply take_drop_between;
  [ rewrite <- ?app_assoc; reflexivity
  | rewrite <- ?app_assoc; cbn [app]; reflexivity ].

Lemma run_of_spec k s :
  run_of k s = true -> forallb (in_cls k) s = true /\ (1 <= length s)%nat.
Proof.
  unfold run_of. intros [Hne Hall]%andb_prop. split; [done|].
  destruct s; [done|simpl; lia].
Qed.

Ltac lacks_parts :=
  repeat first [rewrite lacks_cons | rewrite lacks_app];
  repeat match goal with
         | H : lacks _ _ = true |- _ => rewrite H
         end;
  reflexivity.

(** The pattern of [_parse_info] reads a well-formed info line in its
    parts. *)
Lemma re_info_reads (p : info_parts) :
  info_parts_ok p = true ->
  exists m,
    re_match LaCrosseGateway.re_info (info_line p) = Some m
    /\ group m "name" = ip_name1 p ++ L "." ++ ip_name2 p
    /\ group m "ver" = ip_ver p
    /\ group m "rfm1name" = ip_rfm p
    /\ group m "rfm1freq" = ip_freq p
    /\ group m "rfm1mode" = ip_mode p
    /\ group m "address" = ip_addr p.
Proof.
  destruct p as [n1 n2 c ver rfm key freq mode addr tl].
  unfold info_parts_ok, info_line.
  cbn [ip_name1 ip_name2 ip_sep ip_ver ip_rfm ip_key ip_freq ip_mode ip_addr ip_tail].
  intros Hok. do 15 (apply andb_prop in Hok as [Hok ?]).
  repeat match goal with
         | H : run_of _ _ = true |- _ => apply run_of_spec in H as [? ?]
         | H : negb _ = true |- _ => apply negb_true_iff in H
         end.
  assert (lacks "(" rfm = true) by (now apply (lacks_class Word)).
  assert (lacks "(" key = true) by (now apply (lacks_class Word)).
  assert (lacks "(" freq = true) by (now apply (lacks_class Digit)).
  cbn [L list_ascii_of_string app].
  unfold re_match. rewrite re_info_items. cbn [items groupindex].
  match goal with
  | |- context [run ?re ?s 0%nat ?st] =>
      eassert (Hrun : run re s (length (@nil ascii)) st = Some _)
  end.
  { apply step_one; [reflexivity|]. apply step_open.
    apply step_rep; [done|done| |].
    { intros j Hj. rewrite span_stop in Hj by reflexivity. lia. }
    apply step_one; [reflexivity|].
    apply step_rep; [done|done| |].
    { intros j Hj. rewrite span_stop in Hj by done. lia. }
    apply step_close. apply step_one; [done|]. apply step_open.
    apply step_rep; [done|lia| |].
    { intros j Hj. apply fail_close_two. intros t.
      apply drop_lacks_two; [discriminate| |lia]. lacks_parts. }
    apply step_close. do 4 (apply step_one; [reflexivity|]). apply step_open.
    apply step_rep; [done|done| |].
    { intros j Hj. rewrite span_stop in Hj by reflexivity. lia. }
    apply step_close. apply step_one; [reflexivity|]. apply step_open.
    apply step_rep; [done|done| |].
    { intros j Hj. rewrite span_stop in Hj by reflexivity. lia. }
    apply step_close. apply step_one; [reflexivity|]. apply step_open.
    apply step_rep; [done|done| |].
    { intros j Hj. rewrite span_stop in Hj by reflexivity. lia. }
    apply step_close. apply step_one; [reflexivity|]. apply step_open.
    apply step_rep; [done|lia| |].
    { intros j Hj. apply fail_close_one. intros t.
      apply drop_lacks_one; [|lia]. lacks_parts. }
    apply step_close. do 6 (apply step_one; [reflexivity|]). apply step_open.
    apply step_rep; [done|lia| |].
    { intros j Hj. apply fail_close_one. intros t.
      apply drop_lacks_one; [|lia]. lacks_parts. }
    apply step_close. do 2 (apply step_one; [reflexivity|]).
    reflexivity. }
  change (length (@nil ascii)) with 0%nat in Hrun. rewrite Hrun. clear Hrun.
  eexists. split; [reflexivity|].
  unfold group.
  cbn [m_names m_groups m_string name_index List.find String.eqb Ascii.eqb
       Bool.eqb fst snd fmap option_fmap option_map mark_open mark_close
       m_open m_span assoc Nat.eqb].
  repeat split; span_text.
Qed.

(** *** [split] on the mode text *)

Lemma split_on_from_lacks sep a : forall cur s,
  lacks sep a = true ->
  split_on_from sep cur (a ++ s) = split_on_from sep (rev a ++ cur) s.
Proof.
  induction a as [|c a IH]; intros cur s; [done|].
  rewrite lacks_cons. intros [Hc Ha]%andb_prop. apply negb_true_iff in Hc.
  cbn [app split_on_from]. rewrite Hc, (IH _ _ Ha). simpl rev.
  now rewrite <- app_assoc.
Qed.

Lemma split_on_lacks sep a : lacks sep a = true -> split_on sep a = [a].
Proof.
  intros Ha. unfold split_on.
  rewrite <- (app_nil_r a) at 1. rewrite (split_on_from_lacks sep a [] [] Ha).
  cbn [split_on_from]. now rewrite app_nil_r, rev_involutive.
Qed.

Lemma split_on_sep sep a b :
  lacks sep a = true -> split_on sep (a ++ sep :: b) = a :: split_on sep b.
Proof.
  intros Ha. unfold split_on. rewrite (split_on_from_lacks sep a [] _ Ha).
  cbn [split_on_from]. rewrite (proj2 (chr_eqb_eq sep sep) eq_refl).
  now rewrite app_nil_r, rev_involutive.
Qed.

Lemma split_on_from_before sep s : forall cur,
  exists rest, split_on_from sep cur s = (rev cur ++ before sep s) :: rest.
Proof.
  induction s as [|c s IH]; intros cur; cbn [split_on_from before].
  - exists []. now rewrite app_nil_r.
  - destruct (chr_eqb c sep).
    + eexists. now rewrite app_nil_r.
    + destruct (IH (c :: cur)) as [rest ->]. exists rest. simpl rev.
      now rewrite <- app_assoc.
Qed.

Lemma split_on_before sep s :
  exists rest, split_on sep s = before sep s :: rest.
Proof. apply (split_on_from_before sep s []). Qed.

(** *** What [_parse_info] returns *)

Lemma info0_absent : LaCrosseGateway.info0 = absent_info.
Proof. vm_compute. reflexivity. Qed.

Lemma parse_info_unmatched line :
  re_match LaCrosseGateway.re_info line = None ->
  LaCrosseGateway._parse_info line = Ok absent_info.
Proof.
  intros H. unfold LaCrosseGateway._parse_info. now rewrite H, info0_absent.
Qed.

(** On a line the pattern matches, the result is decided by the text of
    the mode group. *)
Lemma parse_info_of_match line m :
  re_match LaCrosseGateway.re_info line = Some m ->
  LaCrosseGateway._parse_info line
  = (let values := split_on ":" (group m "rfm1mode") in
     v0 ← index values 0;
     if bool_decide (v0 = L "r") then
       v1 ← index values 1;
       Ok (matched_info m (Some v1) None None)
     else if bool_decide (v0 = L "t") then
       v1 ← index values 1;
       let toggle := split_on "~" v1 in
       t0 ← index toggle 0;
       t1 ← index toggle 1;
       Ok (matched_info m None (Some t0) (Some t1))
     else Ok (matched_info m None None None)).
Proof.
  intros Hm. unfold LaCrosseGateway._parse_info, matched_info. rewrite Hm. cbv zeta.
  generalize (group m "name") (group m "ver") (group m "address")
    (group m "rfm1name") (group m "rfm1freq"). intros gn gv ga gr gf.
  destruct (index (split_on ":" (group m "rfm1mode")) 0) as [v0|]; [|reflexivity].
  rewrite !bind_ok.
  destruct (bool_decide (v0 = L "r")).
  { destruct (index (split_on ":" (group m "rfm1mode")) 1) as [v1|]; reflexivity. }
  destruct (bool_decide (v0 = L "t")); [|reflexivity].
  destruct (index (split_on ":" (group m "rfm1mode")) 1) as [v1|]; [|reflexivity].
  rewrite !bind_ok.
  destruct (index (split_on "~" v1) 0) as [t0|]; [|reflexivity].
  rewrite !bind_ok.
  destruct (index (split_on "~" v1) 1) as [t1|]; reflexivity.
Qed.

Lemma parse_info_rate line m v :
  re_match LaCrosseGateway.re_info line = Some m ->
  group m "rfm1mode" = L "r:" ++ v -> lacks ":" v = true ->
  LaCrosseGateway._parse_info line = Ok (matched_info m (Some v) None None).
Proof.
  intros Hm Hmode Hv. rewrite (parse_info_of_match line m Hm), Hmode. cbv zeta.
  change (L "r:" ++ v) with (L "r" ++ ":"%char :: v).
  rewrite (split_on_sep ":" (L "r") v eq_refl), (split_on_lacks ":" v Hv).
  reflexivity.
Qed.

Lemma parse_info_toggle_fields line m a b :
  re_match LaCrosseGateway.re_info line = Some m ->
  group m "rfm1mode" = L "t:" ++ a ++ L "~" ++ b ->
  lacks ":" a = true -> lacks "~" a = true ->
  lacks ":" b = true -> lacks "~" b = true ->
  LaCrosseGateway._parse_info line = Ok (matched_info m None (Some a) (Some b)).
Proof.
  intros Hm Hmode Ha1 Ha2 Hb1 Hb2.
  rewrite (parse_info_of_match line m Hm), Hmode. cbv zeta.
  change (L "t:" ++ a ++ L "~" ++ b) with (L "t" ++ ":"%char :: (a ++ "~"%char :: b)).
  rewrite (split_on_sep ":" (L "t") _ eq_refl).
  rewrite (split_on_lacks ":" (a ++ "~"%char :: b)).
  2:{ rewrite lacks_app, lacks_cons, Ha1, Hb1. reflexivity. }
  cbn [index lookup list_lookup]. rewrite ?bind_ok.
  rewrite (bool_decide_eq_false_2 (L "t" = L "r")) by discriminate.
  rewrite (bool_decide_eq_true_2 (L "t" = L "t")) by reflexivity.
  rewrite (split_on_sep "~" a b Ha2), (split_on_lacks "~" b Hb2).
  reflexivity.
Qed.

Lemma parse_info_other line m :
  re_match LaCrosseGateway.re_info line = Some m ->
  before ":" (group m "rfm1mode") <> L "r" ->
  before ":" (group m "rfm1mode") <> L "t" ->
  LaCrosseGateway._parse_info line = Ok (matched_info m None None None).
Proof.
  intros Hm Hr Ht. rewrite (parse_info_of_match line m Hm). cbv zeta.
  destruct (split_on_before ":" (group m "rfm1mode")) as [rest ->].
  cbn [index lookup list_lookup]. rewrite bind_ok.
  now rewrite (bool_decide_eq_false_2 _ Hr), (bool_decide_eq_false_2 _ Ht).
Qed.

(** The fields of the match of a well-formed line are its parts. *)
Lemma matched_info_parts (p : info_parts) m rate interval mask :
  group m "name" = ip_name1 p ++ L "." ++ ip_name2 p ->
  group m "ver" = ip_ver p -> group m "rfm1name" = ip_rfm p ->
  group m "rfm1freq" = ip_freq p -> group m "address" = ip_addr p ->
  matched_info m rate interval mask = device_info p rate interval mask.
Proof. unfold matched_info, device_info. now intros -> -> -> -> ->. Qed.

(** C3. [_parse_info] fills one of the two groups of mode fields, by the
    letter before the colon of the mode text.  On every line the pattern
    matches: for [r:value] the data rate is the value and the two toggle
    fields stay [None]; for [t:interval~mask] the toggle interval and the
    toggle mask are the two sides of the tilde and the data rate stays
    [None].  And the pattern matches every well-formed line
    [[Name.Ver (1=RFMName key:freq mode) {IP=address}]] with its mode text as
    the mode group, so that the same holds of the parts of such a line. *)
Theorem parse_info_mode :
  (forall line m,
     re_match LaCrosseGateway.re_info line = Some m ->
     (forall v,
        group m "rfm1mode" = L "r:" ++ v -> lacks ":" v = true ->
        LaCrosseGateway._parse_info line = Ok (matched_info m (Some v) None None))
     /\ (forall a b,
           group m "rfm1mode" = L "t:" ++ a ++ L "~" ++ b ->
           lacks ":" a = true -> lacks "~" a = true ->
           lacks ":" b = true -> lacks "~" b = true ->
           LaCrosseGateway._parse_info line
           = Ok (matched_info m None (Some a) (Some b))))
  /\ (forall p,
        info_parts_ok p = true ->
        (forall v,
           ip_mode p = L "r:" ++ v -> lacks ":" v = true ->
           LaCrosseGateway._parse_info (info_line p)
           = Ok (device_info p (Some v) None None))
        /\ (forall a b,
              ip_mode p = L "t:" ++ a ++ L "~" ++ b ->
              lacks ":" a = true -> lacks "~" a = true ->
              lacks ":" b = true -> lacks "~" b = true ->
              LaCrosseGateway._parse_info (info_line p)
              = Ok (device_info p None (Some a) (Some b)))).
Proof.
  split.
  - intros line m Hm. split.
    + intros v. now apply parse_info_rate.
    + intros a b. now apply parse_info_toggle_fields.
  - intros p Hok.
    destruct (re_info_reads p Hok) as (m & Hm & Hn & Hv & Hr & Hf & Hmo & Ha).
    split.
    + intros v Hmode Hlacks. rewrite <- Hmo in Hmode.
      rewrite (parse_info_rate _ m v Hm Hmode Hlacks).
      now rewrite (matched_info_parts p m).
    + intros a b Hmode Ha1 Ha2 Hb1 Hb2. rewrite <- Hmo in Hmode.
      rewrite (parse_info_toggle_fields _ m a b Hm Hmode Ha1 Ha2 Hb1 Hb2).
      now rewrite (matched_info_parts p m).
Qed.

Lemma parse_info_mode_witness :
  LaCrosseGateway._parse_info Sample.info_r
  = Ok (list_to_map
          [("name"%string, Some (L "LaCrosseITPlusReader.Gateway"));
           ("version"%string, Some (L "1.35"));
           ("address"%string, Some (L "192.168.178.40"));
           ("rfm1name"%string, Some (L "RFM69"));
           ("rfm1frequency"%string, Some (L "868300"));
           ("rfm1datarate"%string, Some (L "8"));
           ("rfm1toggleinterval"%string, None);
           ("rfm1togglemask"%string, None)]).
Proof.
  refine (proj1 (proj2 parse_info_mode (Sample.parts "r:8") _) (L "8") _ _);
    vm_compute; reflexivity.
Defined.

(** C5 (as stated) fails on a line that matches the pattern with a mode
    letter other than [r] and [t]: the five fields of the match stay set. *)
Lemma other_mode_keeps_fields :
  exists d,
    LaCrosseGateway._parse_info
      (L "[LaCrosseITPlusReader.Gateway.1.35 (1=RFM69 f:868300 x:8) {IP=192.168.178.40}]")
    = Ok d
    /\ d !! "name"%string = Some (Some (L "LaCrosseITPlusReader.Gateway"))
    /\ d !! "version"%string = Some (Some (L "1.35"))
    /\ d !! "address"%string = Some (Some (L "192.168.178.40"))
    /\ d !! "rfm1name"%string = Some (Some (L "RFM69"))
    /\ d !! "rfm1frequency"%string = Some (Some (L "868300"))
    /\ d <> absent_info.
Proof.
  exists (device_info (Sample.parts "x:8") None None None).
  split; [vm_compute; reflexivity|].
  do 5 (split; [vm_compute; reflexivity|]).
  intros H. apply (f_equal (fun d : gmap string (option str) => d !! "name"%string)) in H.
  vm_compute in H. discriminate H.
Qed.

(** C5 (as amended). [_parse_info] builds its result anew on each call.  On
    a line the pattern does not match, every field of the result is absent.
    On a line the pattern matches with a mode letter that is neither [r] nor
    [t], the three mode fields are absent and the five other fields are
    those of the match; on a well-formed line they are the parts of the
    line. *)
Theorem parse_info_without_mode :
  (forall line,
     re_match LaCrosseGateway.re_info line = None ->
     LaCrosseGateway._parse_info line = Ok absent_info)
  /\ (forall line m,
        re_match LaCrosseGateway.re_info line = Some m ->
        before ":" (group m "rfm1mode") <> L "r" ->
        before ":" (group m "rfm1mode") <> L "t" ->
        LaCrosseGateway._parse_info line = Ok (matched_info m None None None))
  /\ (forall p,
        info_parts_ok p = true ->
        before ":" (ip_mode p) <> L "r" -> before ":" (ip_mode p) <> L "t" ->
        LaCrosseGateway._parse_info (info_line p)
        = Ok (device_info p None None None)).
Proof.
  split; [exact parse_info_unmatched|]. split; [exact parse_info_other|].
  intros p Hok Hr Ht.
  destruct (re_info_reads p Hok) as (m & Hm & Hn & Hv & Hrf & Hf & Hmo & Ha).
  rewrite <- Hmo in Hr, Ht. rewrite (parse_info_other _ m Hm Hr Ht).
  now rewrite (matched_info_parts p m).
Qed.

Lemma parse_info_without_mode_witness :
  LaCrosseGateway._parse_info (L "OK 9 248 1 4 150 106") = Ok absent_info
  /\ LaCrosseGateway._parse_info
       (L "[LaCrosseITPlusReader.Gateway.1.35 (1=RFM69 f:868300 x:8) {IP=192.168.178.40}]")
     = Ok (list_to_map
             [("name"%string, Some (L "LaCrosseITPlusReader.Gateway"));
              ("version"%string, Some (L "1.35"));
              ("address"%string, Some (L "192.168.178.40"));
              ("rfm1name"%string, Some (L "RFM69"));
              ("rfm1frequency"%string, Some (L "868300"));
              ("rfm1datarate"%string, None);
              ("rfm1toggleinterval"%string, None);
              ("rfm1togglemask"%string, None)]).
Proof.
  split.
  - apply (proj1 parse_info_without_mode). vm_compute. reflexivity.
  - refine (proj2 (proj2 parse_info_without_mode) (Sample.parts "x:8") _ _ _);
      [vm_compute; reflexivity|discriminate|discriminate].
Defined.

(** *** Lines without the address part *)

(** A match reads every literal character of the pattern in the line. *)
Lemma run_reads_literal c re : forall s pos st r,
  In (One (Chr c)) re -> run re s pos st = Some r -> In c s.
Proof.
  induction re as [|i re IH]; intros s pos st r Hin Hrun; [done|].
  destruct i as [k|k lo|g|g].
  - destruct s as [|a s]; [discriminate Hrun|]. rewrite run_one in Hrun.
    destruct (in_cls k a) eqn:Ha; [|discriminate Hrun].
    destruct Hin as [[= ->]|Hin].
    + left. now apply chr_eqb_eq.
    + right. eauto.
  - destruct Hin as [[=]|Hin]. rewrite run_rep in Hrun.
    apply backtrack_inv in Hrun as (n & _ & Hrun).
    apply (IH _ _ _ _ Hin) in Hrun.
    rewrite <- (take_drop n s). apply in_or_app. now right.
  - destruct Hin as [[=]|Hin]. cbn [run] in Hrun. eauto.
  - destruct Hin as [[=]|Hin]. cbn [run] in Hrun. eauto.
Qed.

(** A line without an opening brace, so without the [{IP=...}] part, does
    not match the pattern of [_parse_info]: every field is absent. *)
Lemma parse_info_needs_address line :
  lacks "{" line = true -> LaCrosseGateway._parse_info line = Ok absent_info.
Proof.
  intros Hlacks. apply parse_info_unmatched.
  unfold re_match. rewrite re_info_items. cbn [items groupindex].
  match goal with
  | |- context [run ?re line 0%nat ?st] => destruct (run re line 0%nat st) as [[e st']|] eqn:Hrun
  end; [|done].
  apply (run_reads_literal "{") in Hrun; [|cbn; tauto].
  exfalso. induction line as [|a line IH]; [done|].
  rewrite lacks_cons in Hlacks. apply andb_prop in Hlacks as [Ha Hl].
  destruct Hrun as [->|Hin]; [|now apply IH].
  now rewrite (proj2 (chr_eqb_eq _ _) eq_refl) in Ha.
Qed.

(** C9: what the code does on info lines that have no address part, the
    last example of the docstring without [{IP=...}] and the first two
    examples of the docstring as they are: the pattern does not match and
    every field is absent, the name, the version and the radio fields
    too. *)
Theorem parse_info_without_address :
  LaCrosseGateway._parse_info
    (L "[LaCrosseITPlusReader.Gateway.1.35 (1=RFM69 f:868300 r:8)]")
  = Ok absent_info
  /\ LaCrosseGateway._parse_info (L "[LaCrosseITPlusReader.10.1s (RFM12B f:0 r:17241)]")
     = Ok absent_info
  /\ LaCrosseGateway._parse_info (L "[LaCrosseITPlusReader.10.1s (RFM12B f:0 t:10~3)]")
     = Ok absent_info
  /\ absent_info !! "name"%string = Some None
  /\ absent_info !! "version"%string = Some None
  /\ absent_info !! "rfm1name"%string = Some None
  /\ absent_info !! "rfm1frequency"%string = Some None
  /\ absent_info !! "rfm1datarate"%string = Some None.
Proof.
  do 3 (split; [apply parse_info_needs_address; vm_compute; reflexivity|]).
  do 4 (split; [vm_compute; reflexivity|]). vm_compute; reflexivity.
Qed.

(* ================================================================== *)
(** ** The session theorems on a sample session                         *)
(* ================================================================== *)


Lemma start_scan_single_worker_witness :
  LaCrosseGateway.running Sample.scanning = 1%nat
  /\ LaCrosseGateway.start_scan Sample.scanning = Sample.scanning.
Proof.
  split; [vm_compute; reflexivity|].
  refine (proj1 (proj2 (proj2 (start_scan_single_worker (L "gateway") 81 _
            (LaCrosseGateway.reach_step _ _ _ LaCrosseGateway.OpStartScan
               (LaCrosseGateway.reach_step _ _ _ (LaCrosseGateway.OpConnect [])
                  (LaCrosseGateway.reach_init _ _ (LaCrosseGateway.Shared ∅ ∅))))))) _).
  vm_compute. lia.
Defined.

Lemma get_info_first_bracketed_line_witness :
  LaCrosseGateway.get_info (Sample.connected (Sample.noise ++ [Sample.info_r ++ CRLF]))
  = Some (Ok (device_info (Sample.parts "r:8") (Some (L "8")) None None),
          LaCrosseGateway.with_socket
            (Sample.connected (Sample.noise ++ [Sample.info_r ++ CRLF]))
            (LaCrosseGateway.Socket [] [L "v" ++ CRLF; L "v" ++ CRLF] true)).
Proof.
  refine (get_info_first_bracketed_line
            (Sample.connected (Sample.noise ++ [Sample.info_r ++ CRLF]))
            (LaCrosseGateway.Socket (Sample.noise ++ [Sample.info_r ++ CRLF]) [] true)
            Sample.noise (Sample.info_r ++ CRLF) []
            (device_info (Sample.parts "r:8") (Some (L "8")) None None)
            eq_refl eq_refl eq_refl _ _ _).
  - repeat constructor; vm_compute; reflexivity.
  - vm_compute. eexists. reflexivity.
  - vm_compute. reflexivity.
Defined.

Lemma refresh_dispatches_reading_witness :
  exists sensor sid d1 calls1 d2 calls2,
    LaCrosseSensor.__init__ (Some (strip_crlf (Sample.reading ++ CRLF))) = Ok sensor
    /\ LaCrosseSensor.sensorid sensor = Some sid
    /\ LaCrosseGateway._refresh Sample.registered Sample.listening [L "junk"]
       = Ok (d1, calls1)
    /\ LaCrosseGateway._refresh_body d1 Sample.listening (Sample.reading ++ CRLF)
       = Ok (LaCrosseGateway.Shared (<[sid := sensor]> (LaCrosseGateway.sensors d1))
               (LaCrosseGateway._registry d1),
             LaCrosseGateway.dispatch Sample.listening sensor
               (default [] (LaCrosseGateway._registry (LaCrosseGateway.Shared ∅ ∅) !! sid)
                ++ (snd <$> filter (fun r => r.1 = sid) Sample.registrations)))
    /\ LaCrosseGateway._refresh
         (LaCrosseGateway.Shared (<[sid := sensor]> (LaCrosseGateway.sensors d1))
            (LaCrosseGateway._registry d1)) Sample.listening []
       = Ok (d2, calls2)
    /\ LaCrosseGateway._refresh Sample.registered Sample.listening
         ([L "junk"] ++ (Sample.reading ++ CRLF) :: [])
       = Ok (d2,
             calls1
             ++ LaCrosseGateway.dispatch Sample.listening sensor
                  (default [] (LaCrosseGateway._registry (LaCrosseGateway.Shared ∅ ∅) !! sid)
                   ++ (snd <$> filter (fun r => r.1 = sid) Sample.registrations))
             ++ calls2).
Proof.
  apply (refresh_dispatches_reading (LaCrosseGateway.Shared ∅ ∅) Sample.listening
           Sample.registrations [L "junk"] (Sample.reading ++ CRLF) []).
  apply re_reading_match_shape. vm_compute. reflexivity.
Defined.

(** The same run, computed: the catch-all callback [0], then the callbacks
    [1] and [3] of the sensor in the order of their registration, and not
    the callback [2] of another sensor. *)
Example refresh_sample_calls :
  LaCrosseGateway._refresh Sample.registered Sample.listening
    [L "junk"; Sample.reading ++ CRLF]
  = Ok (LaCrosseGateway.Shared {[ L "7931" := Sample.sensor ]}
          (LaCrosseGateway._registry Sample.registered),
        [LaCrosseGateway.Call 0%nat Sample.sensor None;
         LaCrosseGateway.Call 1%nat Sample.sensor None;
         LaCrosseGateway.Call 3%nat Sample.sensor (Some 5%nat)]).
Proof. vm_compute. reflexivity. Qed.

(* ================================================================== *)
(** ** The lines of the source, computed                                *)
(* ================================================================== *)

(** The toggle line in the shape the pattern accepts. *)
Example parse_info_toggle :
  LaCrosseGateway._parse_info
    (L "[LaCrosseITPlusReader.Gateway.1.35 (1=RFM69 f:868300 t:10~3) {IP=192.168.178.40}]")
  = Ok (device_info (Sample.parts "t:10~3") None (Some (L "10")) (Some (L "3"))).
Proof. vm_compute. reflexivity. Qed.

(** A toggle value without a tilde, and a mode without a colon: the index
    that is not there raises. *)
Example parse_info_toggle_without_mask :
  LaCrosseGateway._parse_info
    (L "[LaCrosseITPlusReader.Gateway.1.35 (1=RFM69 f:868300 t:10) {IP=192.168.178.40}]")
  = Raise IndexError.
Proof. vm_compute. reflexivity. Qed.

Example parse_info_mode_without_value :
  LaCrosseGateway._parse_info
    (L "[LaCrosseITPlusReader.Gateway.1.35 (1=RFM69 f:868300 r) {IP=192.168.178.40}]")
  = Raise IndexError.
Proof. vm_compute. reflexivity. Qed.

(** The short line of the comment in [LaCrosseSensor] is no reading. *)
Example short_line_is_no_reading :
  LaCrosseSensor.__init__ (Some (L "OK 9 248 1 4 150 106")) = Ok LaCrosseSensor.blank
  /\ LaCrosseSensor.__repr__ LaCrosseSensor.blank = Raise AttributeError.
Proof. split; vm_compute; reflexivity. Qed.

Example repr_of_reading :
  LaCrosseSensor.__repr__ Sample.sensor = Ok (L "id=7931 pw=0").
Proof. vm_compute. reflexivity. Qed.

(** The identifier of the bytes 9 and 248, and of 0 and 0. *)
Example sensor_id_examples :
  format_02X 9 ++ format_02X 248 = L "09F8"
  /\ format_02X 0 ++ format_02X 0 = L "0000"
  /\ be32 1 0 0 0 = 16777216
  /\ be32 0 0 0 0 = 0.
Proof. repeat split; vm_compute; reflexivity. Qed.

(* ================================================================== *)
(** ** Further properties of [LaCrosseSensor]                           *)
(* ================================================================== *)

(** X1. The reading pattern matches exactly the lines that are [OK], then
    21 fields, each one space and a non-empty run of decimal digits, then
    anything. *)
Theorem reading_pattern_language line :
  is_Some (re_match LaCrosseSensor.re_reading line) <->
  exists ds rest, length ds = 21%nat
                  /\ Forall (fun d => is_uint d = true) ds
                  /\ line = telemetry_line ds rest.
Proof. rewrite re_reading_match_shape. apply telemetry_shape_spec. Qed.






Lemma hex_digit_code d :
  0 <= d < 16 ->
  Z.of_nat (code (hex_digit d)) = if d <? 10 then 48 + d else 55 + d.
Proof.
  intros Hd.
  assert (H16 : d = 0 \/ d = 1 \/ d = 2 \/ d = 3 \/ d = 4 \/ d = 5 \/ d = 6 \/ d = 7
                \/ d = 8 \/ d = 9 \/ d = 10 \/ d = 11 \/ d = 12 \/ d = 13 \/ d = 14
                \/ d = 15) by lia.
  repeat (destruct H16 as [->|H16]; [reflexivity|]). now subst.
Qed.

Lemma hex_digit_injective d e :
  0 <= d < 16 -> 0 <= e < 16 -> hex_digit d = hex_digit e -> d = e.
Proof.
  intros Hd He Heq. apply (f_equal (fun c => Z.of_nat (code c))) in Heq.
  rewrite (hex_digit_code d Hd), (hex_digit_code e He) in Heq.
  destruct (Z.ltb_spec d 10), (Z.ltb_spec e 10); lia.
Qed.

(** X4. Two pairs of bytes that are rendered as the same identifier are the
    same pair: readings of different byte pairs are stored and routed
    apart. *)
Theorem sensorid_bytes_injective b1 b2 c1 c2 :
  0 <= b1 < 256 -> 0 <= b2 < 256 -> 0 <= c1 < 256 -> 0 <= c2 < 256 ->
  concat (format_02X <$> [b1; b2]) = concat (format_02X <$> [c1; c2]) ->
  b1 = c1 /\ b2 = c2.
Proof.
  intros Hb1 Hb2 Hc1 Hc2. cbn [fmap list_fmap concat].
  rewrite !format_02X_byte, !app_nil_r by done. unfold hex2. cbn [app].
  intros [= H1 H2 H3 H4].
  apply hex_digit_injective in H1, H2, H3, H4;
    try (split; [apply Z.div_pos|apply Z.div_lt_upper_bound]; lia);
    try (apply Z.mod_pos_bound; lia).
  pose proof (Z.div_mod b1 16 ltac:(lia)). pose proof (Z.div_mod b2 16 ltac:(lia)).
  pose proof (Z.div_mod c1 16 ltac:(lia)). pose proof (Z.div_mod c2 16 ltac:(lia)).
  lia.
Qed.

Lemma sensorid_bytes_injective_witness : 9 = 9 /\ 248 = 248.
Proof.
  apply (sensorid_bytes_injective 9 248 9 248); [lia..|reflexivity].
Defined.

(** Beyond bytes the identifier does not tell the fields: 18 and 837 give
    the identifier of 291 and 69. *)
Example sensorid_of_wide_fields_collide :
  concat (format_02X <$> [18; 837]) = L "12345"
  /\ concat (format_02X <$> [291; 69]) = L "12345".
Proof. split; vm_compute; reflexivity. Qed.



(* ================================================================== *)
(** ** Further properties of [_parse_info]                              *)
(* ================================================================== *)

Lemma split_on_from_after sep s : forall cur,
  split_on_from sep cur s
  = (rev cur ++ before sep s)
    :: (if lacks sep s then [] else split_on_from sep [] (after sep s)).
Proof.
  induction s as [|c s IH]; intros cur.
  - cbn. now rewrite app_nil_r.
  - cbn [split_on_from before after]. rewrite lacks_cons.
    destruct (chr_eqb c sep); cbn [negb andb].
    + now rewrite app_nil_r.
    + rewrite IH. simpl rev. now rewrite <- app_assoc.
Qed.

(** [s.split(sep)[0]] and [s.split(sep)[1]]. *)
Lemma split_on_first sep s : index (split_on sep s) 0 = Ok (before sep s).
Proof. unfold split_on. now rewrite split_on_from_after. Qed.

Lemma split_on_second sep s :
  index (split_on sep s) 1
  = if lacks sep s then Raise IndexError else Ok (before sep (after sep s)).
Proof.
  unfold split_on. rewrite split_on_from_after.
  destruct (lacks sep s); [reflexivity|]. now rewrite split_on_from_after.
Qed.

(** [_parse_info] on a line the pattern matches, by the mode text. *)
Lemma parse_info_by_mode line m :
  re_match LaCrosseGateway.re_info line = Some m ->
  LaCrosseGateway._parse_info line
  = (let mode := group m "rfm1mode" in
     let v := before ":" (after ":" mode) in
     if bool_decide (before ":" mode = L "r") then
       if lacks ":" mode then Raise IndexError
       else Ok (matched_info m (Some v) None None)
     else if bool_decide (before ":" mode = L "t") then
       if lacks ":" mode then Raise IndexError
       else if lacks "~" v then Raise IndexError
       else Ok (matched_info m None (Some (before "~" v))
                  (Some (before "~" (after "~" v))))
     else Ok (matched_info m None None None)).
Proof.
  intros Hm. rewrite (parse_info_of_match line m Hm). cbv zeta.
  rewrite split_on_first, bind_ok, split_on_second.
  destruct (bool_decide (before ":" (group m "rfm1mode") = L "r")).
  { now destruct (lacks ":" (group m "rfm1mode")). }
  destruct (bool_decide (before ":" (group m "rfm1mode") = L "t")); [|reflexivity].
  destruct (lacks ":" (group m "rfm1mode")); [reflexivity|].
  rewrite bind_ok, split_on_first, bind_ok, split_on_second.
  now destruct (lacks "~" _).
Qed.

Lemma dom_matched_info m rate interval mask :
  dom (matched_info m rate interval mask) = info_keys.
Proof.
  unfold matched_info. cbn [list_to_map foldr fst snd].
  rewrite !dom_insert_L, dom_empty_L. unfold info_keys. cbn [list_to_set foldr].
  reflexivity.
Qed.

(** X6. Whatever the line, a dictionary [_parse_info] returns has the
    eight keys and no other: reading one of them raises no [KeyError]. *)
Theorem parse_info_keys line d :
  LaCrosseGateway._parse_info line = Ok d -> dom d = info_keys.
Proof.
  destruct (re_match LaCrosseGateway.re_info line) as [m|] eqn:Hm.
  - rewrite (parse_info_by_mode line m Hm). cbv zeta.
    repeat match goal with
           | |- context [if ?b then _ else _] => destruct b
           end;
      intros [= <-]; apply dom_matched_info.
  - rewrite (parse_info_unmatched line Hm). intros [= <-].
    vm_compute. reflexivity.
Qed.

Lemma parse_info_keys_witness :
  dom (device_info (Sample.parts "r:8") (Some (L "8")) None None) = info_keys.
Proof.
  apply (parse_info_keys Sample.info_r). vm_compute. reflexivity.
Defined.

(** X7. In a dictionary [_parse_info] returns, the five fields of the
    line are absent together, and then the mode fields are too, or they
    are the groups of the match; and of the mode fields either none is
    set, or the data rate alone, for the letter [r], or the toggle interval
    and the toggle mask and not the data rate, for the letter [t]. *)
Theorem parse_info_all_or_none line d :
  LaCrosseGateway._parse_info line = Ok d ->
  (re_match LaCrosseGateway.re_info line = None /\ d = absent_info)
  \/ exists m,
       re_match LaCrosseGateway.re_info line = Some m
       /\ ((d = matched_info m None None None
            /\ before ":" (group m "rfm1mode") <> L "r"
            /\ before ":" (group m "rfm1mode") <> L "t")
           \/ (exists v, d = matched_info m (Some v) None None
                         /\ before ":" (group m "rfm1mode") = L "r")
           \/ (exists a b, d = matched_info m None (Some a) (Some b)
                           /\ before ":" (group m "rfm1mode") = L "t")).
Proof.
  destruct (re_match LaCrosseGateway.re_info line) as [m|] eqn:Hm.
  - rewrite (parse_info_by_mode line m Hm). cbv zeta. intros Hd. right. exists m.
    split; [reflexivity|].
    destruct (bool_decide_reflect (before ":" (group m "rfm1mode") = L "r")) as [Hr|Hr].
    { destruct (lacks ":" _); [discriminate Hd|]. injection Hd as <-.
      right. left. eauto. }
    destruct (bool_decide_reflect (before ":" (group m "rfm1mode") = L "t")) as [Ht|Ht].
    { destruct (lacks ":" _); [discriminate Hd|].
      destruct (lacks "~" _); [discriminate Hd|]. injection Hd as <-.
      right. right. eauto. }
    injection Hd as <-. left. split; [reflexivity|split; assumption].
  - rewrite (parse_info_unmatched line Hm). intros [= <-]. left.
    split; reflexivity.
Qed.

Lemma parse_info_all_or_none_witness :
  (re_match LaCrosseGateway.re_info (L "[version]") = None
   /\ absent_info = absent_info)
  \/ exists m,
       re_match LaCrosseGateway.re_info (L "[version]") = Some m
       /\ ((absent_info = matched_info m None None None
            /\ before ":" (group m "rfm1mode") <> L "r"
            /\ before ":" (group m "rfm1mode") <> L "t")
           \/ (exists v, absent_info = matched_info m (Some v) None None
                         /\ before ":" (group m "rfm1mode") = L "r")
           \/ (exists a b, absent_info = matched_info m None (Some a) (Some b)
                           /\ before ":" (group m "rfm1mode") = L "t")).
Proof.
  apply (parse_info_all_or_none (L "[version]") absent_info).
  vm_compute. reflexivity.
Defined.

(** X8. [_parse_info] raises nothing but [IndexError], and raises it
    exactly on a line the pattern matches whose mode text has the letter
    [r] or [t] and no colon, or the letter [t] and no tilde in the value
    after the colon. *)
Theorem parse_info_raises line e :
  LaCrosseGateway._parse_info line = Raise e <->
  e = IndexError
  /\ exists m,
       re_match LaCrosseGateway.re_info line = Some m
       /\ ((before ":" (group m "rfm1mode") = L "r"
            /\ lacks ":" (group m "rfm1mode") = true)
           \/ (before ":" (group m "rfm1mode") = L "t"
               /\ (lacks ":" (group m "rfm1mode") = true
                   \/ lacks "~" (before ":" (after ":" (group m "rfm1mode"))) = true))).
Proof.
  destruct (re_match LaCrosseGateway.re_info line) as [m|] eqn:Hm.
  - rewrite (parse_info_by_mode line m Hm). cbv zeta. split.
    + intros Hraise.
      destruct (bool_decide_reflect (before ":" (group m "rfm1mode") = L "r")) as [Hr|Hr].
      { destruct (lacks ":" _) eqn:Hl; [|discriminate Hraise].
        injection Hraise as <-. split; [reflexivity|]. exists m. eauto. }
      destruct (bool_decide_reflect (before ":" (group m "rfm1mode") = L "t")) as [Ht|Ht];
        [|discriminate Hraise].
      destruct (lacks ":" _) eqn:Hl.
      { injection Hraise as <-. split; [reflexivity|]. exists m. eauto. }
      destruct (lacks "~" _) eqn:Hl'; [|discriminate Hraise].
      injection Hraise as <-. split; [reflexivity|]. exists m. eauto 6.
    + intros [-> (m' & [= <-] & Hcase)].
      destruct Hcase as [[Hr Hl]|[Ht Hl]].
      * now rewrite (bool_decide_eq_true_2 _ Hr), Hl.
      * rewrite (bool_decide_eq_false_2 (before ":" (group m "rfm1mode") = L "r"))
          by (rewrite Ht; discriminate).
        rewrite (bool_decide_eq_true_2 _ Ht).
        destruct (lacks ":" _); [reflexivity|].
        destruct Hl as [Hl|Hl]; [discriminate Hl|]. now rewrite Hl.
  - rewrite (parse_info_unmatched line Hm). split; [discriminate|].
    now intros [_ (m & [=] & _)].
Qed.

(* ================================================================== *)
(** ** Further properties of [get_info]                                 *)
(* ================================================================== *)

Lemma re_brackets_items :
  LaCrosseGateway.re_brackets
  = Some (Pattern [One (Chr "["); Rep Dot 0; One (Chr "]")] []).
Proof. vm_compute. reflexivity. Qed.

Lemma backtrack_some {R} (f : nat -> option R) lo i n :
  (lo <= i <= n)%nat -> is_Some (f i) -> is_Some (backtrack f lo n).
Proof.
  intros Hi Hf. induction n as [|n IH]; rewrite backtrack_unfold.
  - assert (i = 0)%nat as -> by lia.
    destruct (Nat.ltb_spec 0 lo) as [Hlt|_]; [lia|].
    destruct Hf as [r ->]. eauto.
  - destruct (Nat.ltb_spec (S n) lo) as [Hlt|_]; [lia|].
    destruct (f (S n)) as [r|] eqn:E; [eauto|].
    destruct (decide (i = S n)) as [->|Hne].
    + rewrite E in Hf. now destruct Hf.
    + apply IH. lia.
Qed.

Lemma span_take_le k s i :
  (i <= span k s)%nat -> forallb (in_cls k) (take i s) = true.
Proof.
  revert i. induction s as [|c s IH]; intros [|i]; simpl; try done.
  destruct (in_cls k c); simpl; [|lia]. intros Hi. apply IH. lia.
Qed.

(** X9. The pattern [get_info] looks for matches exactly the chunks that
    begin with an opening bracket and have a closing bracket before their
    first line feed; and no chunk is both such a chunk and a reading. *)
Theorem bracket_pattern_language :
  (forall line,
     is_Some (re_match LaCrosseGateway.re_brackets line) <->
     exists a b, line = "["%char :: a ++ "]"%char :: b
                 /\ forallb (fun c => negb (is_newline c)) a = true)
  /\ (forall line,
        is_Some (re_match LaCrosseSensor.re_reading line) ->
        re_match LaCrosseGateway.re_brackets line = None).
Proof.
  split.
  - intros line. unfold re_match. rewrite re_brackets_items. cbn [items groupindex].
    split.
    + destruct (run _ line 0%nat _) as [[e st]|] eqn:Hrun; [intros _|now intros [? ?]].
      destruct line as [|c s]; [discriminate Hrun|]. rewrite run_one in Hrun.
      cbn [in_cls] in Hrun. destruct (chr_eqb c "[") eqn:Hc; [|discriminate Hrun].
      apply chr_eqb_eq in Hc as ->. rewrite run_rep in Hrun.
      apply backtrack_inv in Hrun as (i & Hi & Hrun).
      destruct (drop i s) as [|c' b] eqn:Hdrop; [discriminate Hrun|].
      rewrite run_one in Hrun. cbn [in_cls] in Hrun.
      destruct (chr_eqb c' "]") eqn:Hc'; [|discriminate Hrun].
      apply chr_eqb_eq in Hc' as ->. exists (take i s), b. split.
      * now rewrite <- Hdrop, take_drop.
      * apply (span_take_le Dot). lia.
    + intros (a & b & -> & Ha). rewrite run_one. cbn [in_cls].
      rewrite (proj2 (chr_eqb_eq _ _) eq_refl), run_rep.
      match goal with
      | |- is_Some match ?x with _ => _ end =>
          assert (Hsome : is_Some x); [|destruct Hsome as [[e st] ->]; eauto]
      end.
      apply (backtrack_some _ 0 (length a)).
      * rewrite (span_app Dot a _ Ha). lia.
      * rewrite drop_app_length, run_one. cbn [in_cls].
        rewrite (proj2 (chr_eqb_eq _ _) eq_refl). cbn [run]. eauto.
  - intros line Hm%re_reading_match_shape.
    destruct line as [|c1 [|c2 s]]; try discriminate Hm.
    unfold telemetry_shape in Hm.
    apply andb_prop in Hm as [[->%chr_eqb_eq _]%andb_prop _].
    unfold re_match. rewrite re_brackets_items. reflexivity.
Qed.

Section GetInfoFacts.

Import LaCrosseGateway.

Context {Callback UserData : Type}.

Lemma get_info_from_blocked inbox : forall x sent,
  Forall (fun c => re_match re_brackets (strip_crlf c) = None) inbox ->
  get_info_from inbox x sent = None.
Proof.
  induction inbox as [|c inbox IH]; intros x sent Hall; [reflexivity|].
  inversion Hall as [|? ? Hc Hrest]; subst. cbn [get_info_from]. rewrite Hc.
  destruct (S x <? 10)%nat; now apply IH.
Qed.

(** X10. [get_info] returns what [_parse_info] makes of the first
    bracketed chunk, whatever that is, and reads no further: a bracketed
    chunk that the info pattern does not match makes it return the
    dictionary in which every field is absent. *)
Theorem get_info_stops_at_first_bracket
    (g : @gateway Callback UserData) sk pre raw post :
  _socket g = Some sk -> is_open sk = true ->
  inbox sk = pre ++ raw :: post ->
  Forall (fun c => re_match re_brackets (strip_crlf c) = None) pre ->
  is_Some (re_match re_brackets (strip_crlf raw)) ->
  get_info g
  = Some (_parse_info (strip_crlf raw),
          with_socket g
            (Socket post
               (sent sk ++ repeat (L "v" ++ CRLF) (1 + length pre / 10)) true))
  /\ (re_match re_info (strip_crlf raw) = None ->
      _parse_info (strip_crlf raw) = Ok absent_info).
Proof.
  intros Hsk Hopen Hin Hpre Hraw. split; [|apply parse_info_unmatched].
  unfold get_info. rewrite (write_cmd_connected g sk _ Hsk Hopen).
  cbn [with_socket _socket inbox sent is_open]. rewrite Hin.
  rewrite (get_info_from_first pre raw post 0 _ ltac:(lia) Hpre Hraw).
  cbn [Nat.add repeat]. now rewrite <- app_assoc.
Qed.

(** X11. [get_info] does not give up: as long as no bracketed chunk has
    arrived it has not returned, however many chunks it has read. *)
Theorem get_info_waits_for_bracket (g : @gateway Callback UserData) sk :
  _socket g = Some sk -> is_open sk = true ->
  Forall (fun c => re_match re_brackets (strip_crlf c) = None) (inbox sk) ->
  get_info g = None.
Proof.
  intros Hsk Hopen Hall. unfold get_info.
  rewrite (write_cmd_connected g sk _ Hsk Hopen).
  cbn [with_socket _socket inbox sent is_open].
  now rewrite (get_info_from_blocked _ 0 _ Hall).
Qed.

End GetInfoFacts.

Lemma get_info_stops_at_first_bracket_witness :
  LaCrosseGateway.get_info (Sample.connected (Sample.noise ++ [L "[version]" ++ CRLF]))
  = Some (LaCrosseGateway._parse_info (strip_crlf (L "[version]" ++ CRLF)),
          LaCrosseGateway.with_socket
            (Sample.connected (Sample.noise ++ [L "[version]" ++ CRLF]))
            (LaCrosseGateway.Socket []
               ([] ++ repeat (L "v" ++ CRLF) (1 + length Sample.noise / 10)) true))
  /\ (re_match LaCrosseGateway.re_info (strip_crlf (L "[version]" ++ CRLF)) = None ->
      LaCrosseGateway._parse_info (strip_crlf (L "[version]" ++ CRLF))
      = Ok absent_info).
Proof.
  refine (get_info_stops_at_first_bracket
            (Sample.connected (Sample.noise ++ [L "[version]" ++ CRLF]))
            (LaCrosseGateway.Socket (Sample.noise ++ [L "[version]" ++ CRLF]) [] true)
            Sample.noise (L "[version]" ++ CRLF) []
            eq_refl eq_refl eq_refl _ _).
  - repeat constructor; vm_compute; reflexivity.
  - vm_compute. eexists. reflexivity.
Defined.

Lemma get_info_waits_for_bracket_witness :
  LaCrosseGateway.get_info (Sample.connected Sample.noise) = None.
Proof.
  refine (get_info_waits_for_bracket (Sample.connected Sample.noise)
            (LaCrosseGateway.Socket Sample.noise [] true) eq_refl eq_refl _).
  repeat constructor; vm_compute; reflexivity.
Defined.

(* ================================================================== *)
(** ** Further properties of the session                                *)
(* ================================================================== *)

Section SessionMore.

Import LaCrosseGateway.

Context {Callback UserData : Type}.

Abbreviation gateway' := (@gateway Callback UserData).
Abbreviation world' := (@world Callback UserData).
Abbreviation shared' := (@shared Callback UserData).

(** *** Commands *)

(** X12. A setter called with a channel other than 1 and 2 raises
    [KeyError] before it touches the socket: nothing is written, and the
    error is the same on a gateway that is not connected. *)
Theorem setter_rejects_channel (g : gateway') (v : pyval) rfm :
  rfm <> 1 -> rfm <> 2 ->
  set_frequency g v rfm = Raise KeyError
  /\ set_datarate g v rfm = Raise KeyError
  /\ set_toggle_interval g v rfm = Raise KeyError
  /\ set_toggle_mask g v rfm = Raise KeyError.
Proof.
  intros H1 H2.
  unfold set_frequency, set_datarate, set_toggle_interval, set_toggle_mask,
    set_with, cmds.
  destruct (Z.eqb_spec rfm 1) as [|_]; [done|].
  destruct (Z.eqb_spec rfm 2) as [|_]; [done|].
  repeat split.
Qed.

Lemma set_with_connected lower upper (g : gateway') sk v rfm :
  _socket g = Some sk -> is_open sk = true -> rfm = 1 \/ rfm = 2 ->
  set_with lower upper g v rfm
  = Ok (with_socket g
          (Socket (inbox sk)
             (sent sk ++ [format_value v ++ [if rfm =? 1 then lower else upper] ++ CRLF])
             true)).
Proof.
  intros Hsk Hopen Hrfm. unfold set_with, cmds.
  destruct Hrfm as [-> | ->]; cbn [Z.eqb Pos.eqb]; rewrite bind_ok;
    rewrite (write_cmd_connected g sk _ Hsk Hopen); now rewrite <- app_assoc.
Qed.

Lemma with_socket_twice (g : gateway') sk sk' :
  with_socket (with_socket g sk) sk' = with_socket g sk'.
Proof. reflexivity. Qed.

(** One guarded call of [configure] on a connected gateway. *)
Lemma configure_step lower upper (g : gateway') sk guard v rfm :
  _socket g = Some sk -> is_open sk = true -> rfm = 1 \/ rfm = 2 ->
  (if CliTool.given guard then set_with lower upper g (CliTool.value v) rfm else Ok g)
  = Ok (with_socket g
          (Socket (inbox sk)
             (sent sk ++ CliTool.wire guard v (if rfm =? 1 then lower else upper))
             true)).
Proof.
  intros Hsk Hopen Hrfm. unfold CliTool.wire. destruct (CliTool.given guard).
  - now apply set_with_connected.
  - rewrite app_nil_r. destruct g as [h p cb cbd s ev th]. cbn in Hsk. subst s.
    destruct sk as [i o b]. cbn in Hopen. now subst b.
Qed.

Lemma configure_step_next lower upper (g : gateway') i o guard v rfm :
  rfm = 1 \/ rfm = 2 ->
  (if CliTool.given guard
   then set_with lower upper (with_socket g (Socket i o true)) (CliTool.value v) rfm
   else Ok (with_socket g (Socket i o true)))
  = Ok (with_socket g
          (Socket i (o ++ CliTool.wire guard v (if rfm =? 1 then lower else upper))
             true)).
Proof.
  intros Hrfm.
  now rewrite (configure_step lower upper (with_socket g (Socket i o true))
                 (Socket i o true) guard v rfm eq_refl eq_refl Hrfm).
Qed.

(** X13. On a connected gateway [configure] raises nothing and writes one
    command for each option that is given, in the order [f F r R m M t T],
    and nothing else; the [R] and the [T] command carry the values of the
    options for the first radio. *)
Theorem configure_writes (g : gateway') sk (a : CliTool.args) :
  _socket g = Some sk -> is_open sk = true ->
  CliTool.configure g a
  = Ok (with_socket g
          (Socket (inbox sk)
             (sent sk
              ++ CliTool.wire (CliTool.frequency_rfm1 a) (CliTool.frequency_rfm1 a) "f"
              ++ CliTool.wire (CliTool.frequency_rfm2 a) (CliTool.frequency_rfm2 a) "F"
              ++ CliTool.wire (CliTool.datarate_rfm1 a) (CliTool.datarate_rfm1 a) "r"
              ++ CliTool.wire (CliTool.datarate_rfm2 a) (CliTool.datarate_rfm1 a) "R"
              ++ CliTool.wire (CliTool.toggle_mask_rfm1 a) (CliTool.toggle_mask_rfm1 a) "m"
              ++ CliTool.wire (CliTool.toggle_mask_rfm2 a) (CliTool.toggle_mask_rfm2 a) "M"
              ++ CliTool.wire (CliTool.toggle_interval_rfm1 a)
                   (CliTool.toggle_interval_rfm1 a) "t"
              ++ CliTool.wire (CliTool.toggle_interval_rfm2 a)
                   (CliTool.toggle_interval_rfm1 a) "T")
             true)).
Proof.
  intros Hsk Hopen. unfold CliTool.configure,
    set_frequency, set_datarate, set_toggle_interval, set_toggle_mask.
  rewrite (configure_step "f" "F" g sk _ _ 1 Hsk Hopen) by now left.
  rewrite bind_ok.
  do 6 (rewrite configure_step_next by (first [now left|now right]);
        rewrite bind_ok).
  rewrite configure_step_next by now right.
  cbn [Z.eqb Pos.eqb]. now rewrite <- !app_assoc.
Qed.

End SessionMore.

Lemma setter_rejects_channel_witness :
  LaCrosseGateway.set_frequency (Sample.connected []) (PInt 868300) 3 = Raise KeyError
  /\ LaCrosseGateway.set_datarate (Sample.connected []) (PInt 868300) 3 = Raise KeyError
  /\ LaCrosseGateway.set_toggle_interval (Sample.connected []) (PInt 868300) 3
     = Raise KeyError
  /\ LaCrosseGateway.set_toggle_mask (Sample.connected []) (PInt 868300) 3
     = Raise KeyError.
Proof.
  apply (setter_rejects_channel (Sample.connected []) (PInt 868300) 3); lia.
Defined.

(** With [-R 9579] alone the command for the second radio carries the
    value of the option that was not given. *)
Lemma configure_writes_witness :
  CliTool.configure (Sample.connected [])
    (CliTool.Args None None None None None None None (Some (L "9579")))
  = Ok (LaCrosseGateway.with_socket (Sample.connected [])
          (LaCrosseGateway.Socket [] [L "NoneR" ++ CRLF] true)).
Proof.
  exact (configure_writes (Sample.connected [])
           (LaCrosseGateway.Socket [] [] true)
           (CliTool.Args None None None None None None None (Some (L "9579")))
           eq_refl eq_refl).
Defined.

(* ================================================================== *)
(** ** Further properties of the registrations and of the loop          *)
(* ================================================================== *)

Section LoopFacts.

Import LaCrosseGateway.

Context {Callback UserData : Type}.

Implicit Types (d : @shared Callback UserData) (g : @gateway Callback UserData).

(** X14. [register_callback] puts the callback at the end of the list of
    its identifier, keeps those that were there in their places, leaves
    the callbacks of every other identifier as they were, and does not
    touch [sensors]. *)
Theorem register_callback_appends d s f u :
  _registry (register_callback d s f u) !! s
  = Some (default [] (_registry d !! s) ++ [(f, u)])
  /\ (forall sid, sid <> s ->
        _registry (register_callback d s f u) !! sid = _registry d !! sid)
  /\ sensors (register_callback d s f u) = sensors d.
Proof.
  unfold register_callback. cbn [_registry sensors]. split; [|split; [|reflexivity]].
  - rewrite lookup_insert_eq. destruct (_registry d !! s) eqn:E; [now rewrite E|].
    now rewrite lookup_insert_eq.
  - intros sid Hne. rewrite lookup_insert_ne by done.
    destruct (_registry d !! s); [done|]. now rewrite lookup_insert_ne.
Qed.

(** X15. [register_all] replaces the catch-all callback: after two calls
    the loop calls the second callback, with the second user data, once for
    a reading, and the first callback not at all (unless it is registered
    for the identifier). *)
Theorem register_all_replaces d g f1 u1 f2 u2 raw :
  is_Some (re_match LaCrosseSensor.re_reading (strip_crlf raw)) ->
  exists sensor sid,
    LaCrosseSensor.__init__ (Some (strip_crlf raw)) = Ok sensor
    /\ LaCrosseSensor.sensorid sensor = Some sid
    /\ _refresh_body d (register_all (register_all g f1 u1) f2 u2) raw
       = Ok (Shared (<[sid := sensor]> (sensors d)) (_registry d),
             Call f2 sensor u2
             :: ((fun cb => Call cb.1 sensor cb.2) <$> default [] (_registry d !! sid))).
Proof.
  intros Hm.
  destruct (refresh_body_match d (register_all (register_all g f1 u1) f2 u2) raw Hm)
    as (sensor & sid & Hinit & Hsid & Hbody).
  exists sensor, sid. split; [exact Hinit|]. split; [exact Hsid|]. exact Hbody.
Qed.

(** What the body of the loop does with a chunk. *)
Lemma refresh_body_cases d g raw :
  (re_match LaCrosseSensor.re_reading (strip_crlf raw) = None
   /\ _refresh_body d g raw = Ok (d, []))
  \/ exists sensor sid,
       is_Some (re_match LaCrosseSensor.re_reading (strip_crlf raw))
       /\ LaCrosseSensor.__init__ (Some (strip_crlf raw)) = Ok sensor
       /\ LaCrosseSensor.sensorid sensor = Some sid
       /\ _refresh_body d g raw
          = Ok (Shared (<[sid := sensor]> (sensors d)) (_registry d),
                dispatch g sensor (default [] (_registry d !! sid))).
Proof.
  destruct (re_match LaCrosseSensor.re_reading (strip_crlf raw)) as [m|] eqn:Hm.
  - right.
    destruct (refresh_body_match d g raw) as (sensor & sid & H1 & H2 & H3);
      [rewrite Hm; eauto|].
    exists sensor, sid. split; [eauto|]. split; [exact H1|]. split; [exact H2|exact H3].
  - left. split; [reflexivity|]. unfold _refresh_body. now rewrite Hm.
Qed.

(** X16. The loop raises on no chunk; it leaves the registry as it is;
    it removes no sensor from [sensors]; and chunks that are not readings,
    an info line among them, change nothing and call nothing. *)
Theorem refresh_keeps g chunks : forall d,
  exists d' calls,
    _refresh d g chunks = Ok (d', calls)
    /\ _registry d' = _registry d
    /\ (forall sid, is_Some (sensors d !! sid) -> is_Some (sensors d' !! sid))
    /\ (Forall (fun raw => re_match LaCrosseSensor.re_reading (strip_crlf raw) = None)
          chunks ->
        d' = d /\ calls = []).
Proof.
  induction chunks as [|raw chunks IH]; intros d.
  - exists d, []. repeat split; auto.
  - rewrite refresh_cons.
    destruct (refresh_body_cases d g raw)
      as [[Hno ->]|(sensor & sid & [m Hm] & _ & _ & ->)];
      rewrite bind_ok; cbn [fst snd].
    + destruct (IH d) as (d' & calls & -> & Hreg & Hdom & Hnone).
      rewrite bind_ok. cbn [fst snd app]. exists d', calls.
      split; [reflexivity|]. split; [exact Hreg|]. split; [exact Hdom|].
      intros Hall. inversion Hall; subst. now apply Hnone.
    + destruct (IH (Shared (<[sid := sensor]> (sensors d)) (_registry d)))
        as (d' & calls & -> & Hreg & Hdom & _).
      rewrite bind_ok. cbn [fst snd]. eexists _, _.
      split; [reflexivity|]. split; [exact Hreg|]. split.
      * intros sid' Hin. apply Hdom. cbn [sensors].
        destruct (decide (sid = sid')) as [->|Hne].
        -- rewrite lookup_insert_eq. eauto.
        -- now rewrite lookup_insert_ne.
      * intros Hall. inversion Hall as [|? ? Hraw _]; subst. congruence.
Qed.

Lemma init_unmatched line :
  re_match LaCrosseSensor.re_reading line = None ->
  LaCrosseSensor.__init__ (Some line) = Ok LaCrosseSensor.blank.
Proof.
  intros Hno. destruct line as [|c l]; [reflexivity|].
  unfold LaCrosseSensor.__init__, LaCrosseSensor._parse. now rewrite Hno.
Qed.

(** Chunks that are not readings of [sid] leave its entry as it is. *)
Lemma refresh_other_ids g sid post : forall d d' calls,
  Forall (fun raw => forall s',
            LaCrosseSensor.__init__ (Some (strip_crlf raw)) = Ok s' ->
            LaCrosseSensor.sensorid s' <> Some sid) post ->
  _refresh d g post = Ok (d', calls) ->
  sensors d' !! sid = sensors d !! sid.
Proof.
  induction post as [|raw post IH]; intros d d' calls Hall Hrun.
  - cbn in Hrun. now injection Hrun as <- _.
  - inversion Hall as [|? ? Hraw Hpost]; subst. rewrite refresh_cons in Hrun.
    destruct (refresh_body_cases d g raw)
      as [[_ Hb]|(sensor & sid' & _ & Hinit & Hsid & Hb)];
      rewrite Hb, bind_ok in Hrun; cbn [fst snd] in Hrun.
    + destruct (_refresh d g post) as [[d2 c2]|] eqn:Hrest; [|discriminate Hrun].
      rewrite bind_ok in Hrun. injection Hrun as <- _. now apply (IH d d2 c2).
    + destruct (_refresh _ g post) as [[d2 c2]|] eqn:Hrest; [|discriminate Hrun].
      rewrite bind_ok in Hrun. injection Hrun as <- _.
      rewrite (IH _ d2 c2 Hpost Hrest). cbn [sensors].
      apply lookup_insert_ne. intros ->. now apply (Hraw sensor Hinit).
Qed.

(** X17. The entry of an identifier in [sensors] is the latest reading
    with that identifier: after a chunk that is decoded into [sensor] with
    the identifier [sid], and chunks that are not readings of [sid], the
    entry of [sid] is [sensor], whatever was received and stored before. *)
Theorem sensors_holds_latest d g pre raw post sensor sid :
  LaCrosseSensor.__init__ (Some (strip_crlf raw)) = Ok sensor ->
  LaCrosseSensor.sensorid sensor = Some sid ->
  Forall (fun raw' => forall s',
            LaCrosseSensor.__init__ (Some (strip_crlf raw')) = Ok s' ->
            LaCrosseSensor.sensorid s' <> Some sid) post ->
  exists d' calls,
    _refresh d g (pre ++ raw :: post) = Ok (d', calls)
    /\ sensors d' !! sid = Some sensor.
Proof.
  intros Hinit Hsid Hpost.
  destruct (refresh_total g (pre ++ raw :: post) d) as (d' & calls & Hrun & _).
  exists d', calls. split; [exact Hrun|].
  rewrite refresh_app in Hrun.
  destruct (_refresh d g pre) as [[d1 c1]|]; [|discriminate Hrun].
  rewrite bind_ok, refresh_cons in Hrun. cbn [fst snd] in Hrun.
  destruct (refresh_body_cases d1 g raw)
    as [[Hno Hb]|(sensor' & sid' & _ & Hinit' & Hsid' & Hb)].
  { rewrite (init_unmatched _ Hno) in Hinit. injection Hinit as <-.
    discriminate Hsid. }
  rewrite Hinit in Hinit'. injection Hinit' as <-.
  rewrite Hsid in Hsid'. injection Hsid' as <-.
  rewrite Hb, bind_ok in Hrun. cbn [fst snd] in Hrun.
  destruct (_refresh _ g post) as [[d2 c2]|] eqn:Hrest; [|discriminate Hrun].
  rewrite !bind_ok in Hrun. cbn [fst snd] in Hrun. injection Hrun as <- _.
  rewrite (refresh_other_ids g sid post _ d2 c2 Hpost Hrest). cbn [sensors].
  apply lookup_insert_eq.
Qed.

(** *** The end of a session *)


End LoopFacts.


(** *** The extras on the sample session *)

Lemma register_all_replaces_witness :
  exists sensor sid,
    LaCrosseSensor.__init__ (Some (strip_crlf (Sample.reading ++ CRLF))) = Ok sensor
    /\ LaCrosseSensor.sensorid sensor = Some sid
    /\ LaCrosseGateway._refresh_body Sample.registered
         (LaCrosseGateway.register_all
            (LaCrosseGateway.register_all Sample.listening 7%nat None)
            8%nat (Some 9%nat))
         (Sample.reading ++ CRLF)
       = Ok (LaCrosseGateway.Shared
               (<[sid := sensor]> (LaCrosseGateway.sensors Sample.registered))
               (LaCrosseGateway._registry Sample.registered),
             LaCrosseGateway.Call 8%nat sensor (Some 9%nat)
             :: ((fun cb => LaCrosseGateway.Call cb.1 sensor cb.2)
                   <$> default [] (LaCrosseGateway._registry Sample.registered !! sid))).
Proof.
  apply (register_all_replaces Sample.registered Sample.listening 7%nat None 8%nat
           (Some 9%nat) (Sample.reading ++ CRLF)).
  apply re_reading_match_shape. vm_compute. reflexivity.
Defined.

Lemma sensors_holds_latest_witness :
  exists d' calls,
    LaCrosseGateway._refresh Sample.registered Sample.listening
      ([L "junk"] ++ (Sample.reading ++ CRLF)
         :: [L "OK 22 121 50 3 222 240 0 1 82 87 121 0 4 148 225 0 0 38 229 1 0";
             L "noise"])
    = Ok (d', calls)
    /\ LaCrosseGateway.sensors d' !! L "7931" = Some Sample.sensor.
Proof.
  apply (sensors_holds_latest Sample.registered Sample.listening [L "junk"]
           (Sample.reading ++ CRLF)
           [L "OK 22 121 50 3 222 240 0 1 82 87 121 0 4 148 225 0 0 38 229 1 0";
            L "noise"]
           Sample.sensor (L "7931")).
  - vm_compute. reflexivity.
  - reflexivity.
  - repeat constructor; intros s' H; vm_compute in H; injection H as <-;
      intros H; discriminate H.
Defined.

